(** * Path resolution and document links of the CFML editor extension

    A shallow embedding of [utils/fileUtil.ts] (directory filters, the
    existence probe, dotted-path resolution through the local, root and
    mapping tiers) and of [features/documentLinkProvider.ts] (link scan and
    link resolution), with the properties of the written specification
    stated over it.

    Strings are sequences of 8-bit characters; the editor API (Uri, the
    workspace file system, the configuration) is a record of host
    operations; JavaScript regular expressions are modelled by a small
    engine for the fragment the file utilities use. *)

From Stdlib Require Import String Ascii List Bool Arith NArith ZArith Lia.
From Stdlib Require Import Permutation.
Import ListNotations.
Local Open Scope string_scope.

(* ================================================================== *)
(** ** JavaScript strings *)
(* ================================================================== *)

Module JsString.

(** [s.replace(/a/g, b)] for a one-character pattern [a]. *)
Fixpoint replaceAll (a b : ascii) (s : string) : string :=
  match s with
  | EmptyString => EmptyString
  | String c s' => String (if Ascii.eqb c a then b else c) (replaceAll a b s')
  end.

(** [s.slice(n)] for a non-negative [n]: the characters from index [n] on,
    the empty string when [n] is past the end. *)
Fixpoint slice (n : nat) (s : string) : string :=
  match n, s with
  | O, _ => s
  | S _, EmptyString => EmptyString
  | S n', String _ s' => slice n' s'
  end.


(** [s.indexOf(t)]: index of the first occurrence, [-1] when there is
    none. *)
Definition indexOf (s t : string) : Z :=
  match String.index 0 t s with
  | Some n => Z.of_nat n
  | None => (-1)%Z
  end.

(** [s.split(/[?#]/)[0]]: the text before the first [?] or [#]. *)
Fixpoint beforeQueryOrFragment (s : string) : string :=
  match s with
  | EmptyString => EmptyString
  | String c s' =>
      if Ascii.eqb c "?" || Ascii.eqb c "#" then EmptyString
      else String c (beforeQueryOrFragment s')
  end.

(** [s.substring(a, a + n)], the slice of a text at a span. *)
Definition span (a n : nat) (s : string) : string := String.substring a n s.

(** Removes the prefix [p] from [s] when [s] starts with it. *)
Fixpoint stripPrefix (p s : string) : option string :=
  match p, s with
  | EmptyString, _ => Some s
  | String _ _, EmptyString => None
  | String a p', String b s' =>
      if Ascii.eqb a b then stripPrefix p' s' else None
  end.

(** [s.startsWith(p)]. *)
Definition startsWith (s p : string) : bool :=
  match stripPrefix p s with
  | Some _ => true
  | None => false
  end.

End JsString.

(* ================================================================== *)
(** ** Regular expressions

    The fragment of ECMAScript patterns used by [fileUtil.ts]: characters,
    [.], the assertions [^] and [$], alternation, groups, the quantifiers
    [*], [+], [?] (greedy or lazy) and escaped syntax characters.  Only
    [RegExp.prototype.test] is needed, so captures are not recorded and
    greedy and lazy quantifiers coincide. *)
(* ================================================================== *)

Module RegExp.

Inductive regex : Type :=
| REmpty
| RChar (c : ascii)
| RDot
| RBol
| REol
| RSeq (r1 r2 : regex)
| RAlt (r1 r2 : regex)
| RStar (r : regex)
| RPlus (r : regex)
| ROpt (r : regex).

(** Outcome of compiling a pattern source. [PatternUnsupported] marks
    syntax outside the modelled fragment (classes, braces, look-around,
    class escapes, back-references); it is not an ECMAScript outcome. *)
Inductive compiled : Type :=
| Compiled (r : regex)
| PatternSyntaxError
| PatternUnsupported.

(** *** Matching *)

(** Canonicalize of the [i] flag, on the ASCII letters. *)
Definition canonicalize (c : ascii) : ascii :=
  let n := nat_of_ascii c in
  if ((97 <=? n) && (n <=? 122))%nat then ascii_of_nat (n - 32) else c.

Definition char_eq (ignoreCase : bool) (a b : ascii) : bool :=
  if ignoreCase then Ascii.eqb (canonicalize a) (canonicalize b)
  else Ascii.eqb a b.

Definition is_line_terminator (c : ascii) : bool :=
  Ascii.eqb c "010" || Ascii.eqb c "013".

Definition cont := nat -> string -> bool.

(** Iterations of a quantified atom; an iteration that consumes nothing
    fails, as in RepeatMatcher. *)
Fixpoint repeat_loop (step : nat -> string -> cont -> bool) (k : cont)
         (fuel i : nat) (s : string) : bool :=
  match fuel with
  | O => k i s
  | S fuel' =>
      step i s (fun i' s' => negb (i' =? i)%nat && repeat_loop step k fuel' i' s')
      || k i s
  end.

(** [rmatch ic r i s k]: [r] matches a prefix of [s], the text at index
    [i] of the input, and [k] accepts the rest. *)
Fixpoint rmatch (ic : bool) (r : regex) (i : nat) (s : string) (k : cont)
  : bool :=
  match r with
  | REmpty => k i s
  | RChar c =>
      match s with
      | String d s' => char_eq ic c d && k (S i) s'
      | EmptyString => false
      end
  | RDot =>
      match s with
      | String d s' => negb (is_line_terminator d) && k (S i) s'
      | EmptyString => false
      end
  | RBol => (i =? 0)%nat && k i s
  | REol => match s with EmptyString => k i s | String _ _ => false end
  | RSeq r1 r2 => rmatch ic r1 i s (fun i' s' => rmatch ic r2 i' s' k)
  | RAlt r1 r2 => rmatch ic r1 i s k || rmatch ic r2 i s k
  | RStar r1 => repeat_loop (rmatch ic r1) k (S (String.length s)) i s
  | RPlus r1 =>
      rmatch ic r1 i s
        (fun i' s' => repeat_loop (rmatch ic r1) k (S (String.length s')) i' s')
  | ROpt r1 => rmatch ic r1 i s k || k i s
  end.

Definition accept : cont := fun _ _ => true.

(** The search of [test] on a regex whose [lastIndex] is 0: a match may
    start at any index of the input. *)
Fixpoint search (ic : bool) (r : regex) (i : nat) (s : string) : bool :=
  rmatch ic r i s accept
  || match s with
     | EmptyString => false
     | String _ s' => search ic r (S i) s'
     end.

(** *** Parsing a pattern source *)

(** A disjunction under construction: the alternatives already closed and
    the terms of the current alternative, both latest first. *)
Record frame : Type := { f_alts : list regex; f_seq : list regex }.

Definition empty_frame : frame := {| f_alts := []; f_seq := [] |}.

Fixpoint seq_of (rs : list regex) : regex :=
  match rs with
  | [] => REmpty
  | r :: rs' => RSeq r (seq_of rs')
  end.

Fixpoint alt_of (r : regex) (earlier : list regex) : regex :=
  match earlier with
  | [] => r
  | a :: earlier' => alt_of (RAlt a r) earlier'
  end.

Definition close_frame (f : frame) : regex :=
  alt_of (seq_of (rev (f_seq f))) (f_alts f).

Definition push_term (r : regex) (f : frame) : frame :=
  {| f_alts := f_alts f; f_seq := r :: f_seq f |}.

Definition next_alternative (f : frame) : frame :=
  {| f_alts := seq_of (rev (f_seq f)) :: f_alts f; f_seq := [] |}.

(** What a quantifier would apply to. *)
Inductive last_term : Type :=
| NoAtom        (* start of an alternative, or after an assertion *)
| AnAtom        (* a quantifiable atom *)
| Quantified    (* an atom with its quantifier: only a lazy [?] may follow *)
| QuantifiedLazy.

Definition quantify (q : regex -> regex) (f : frame) : frame :=
  match f_seq f with
  | r :: rs => {| f_alts := f_alts f; f_seq := q r :: rs |}
  | [] => f
  end.

(** SyntaxCharacter, and [/], which an identity escape may protect. *)
Definition is_syntax_char (c : ascii) : bool :=
  existsb (Ascii.eqb c)
    ["^"; "$"; "\"; "."; "*"; "+"; "?"; "("; ")"; "["; "]"; "{"; "}"; "|"; "/"]%char.

(** Characters that do not stand for themselves in a pattern. *)
Definition is_special (c : ascii) : bool :=
  existsb (Ascii.eqb c)
    ["^"; "$"; "\"; "."; "*"; "+"; "?"; "("; ")"; "["; "{"; "|"]%char.

Fixpoint parse (s : string) (cur : frame) (stack : list frame) (q : last_term)
  : compiled :=
  match s with
  | EmptyString =>
      match stack with
      | [] => Compiled (close_frame cur)
      | _ :: _ => PatternSyntaxError          (* unterminated group *)
      end
  | String c rest =>
      if Ascii.eqb c "(" then
        match rest with
        | String "?" (String ":" rest') =>
            parse rest' empty_frame (cur :: stack) NoAtom
        | String "?" _ => PatternUnsupported
        | _ => parse rest empty_frame (cur :: stack) NoAtom
        end
      else if Ascii.eqb c ")" then
        match stack with
        | [] => PatternSyntaxError            (* unmatched ')' *)
        | outer :: stack' =>
            parse rest (push_term (close_frame cur) outer) stack' AnAtom
        end
      else if Ascii.eqb c "|" then parse rest (next_alternative cur) stack NoAtom
      else if Ascii.eqb c "^" then parse rest (push_term RBol cur) stack NoAtom
      else if Ascii.eqb c "$" then parse rest (push_term REol cur) stack NoAtom
      else if Ascii.eqb c "." then parse rest (push_term RDot cur) stack AnAtom
      else if Ascii.eqb c "*" then
        match q with
        | AnAtom => parse rest (quantify RStar cur) stack Quantified
        | _ => PatternSyntaxError             (* nothing to repeat *)
        end
      else if Ascii.eqb c "+" then
        match q with
        | AnAtom => parse rest (quantify RPlus cur) stack Quantified
        | _ => PatternSyntaxError
        end
      else if Ascii.eqb c "?" then
        match q with
        | AnAtom => parse rest (quantify ROpt cur) stack Quantified
        | Quantified => parse rest cur stack QuantifiedLazy
        | _ => PatternSyntaxError
        end
      else if Ascii.eqb c "\" then
        match rest with
        | EmptyString => PatternSyntaxError   (* \ at end of pattern *)
        | String d rest' =>
            if is_syntax_char d
            then parse rest' (push_term (RChar d) cur) stack AnAtom
            else PatternUnsupported
        end
      else if Ascii.eqb c "[" || Ascii.eqb c "{" then PatternUnsupported
      else parse rest (push_term (RChar c) cur) stack AnAtom
  end.

Definition compile (source : string) : compiled :=
  parse source empty_frame [] NoAtom.

(** A regular expression object: the compiled pattern and the [i] flag.
    ([g] only moves [lastIndex], which is 0 on a fresh object.) *)
Record t : Type := { pattern : regex; ignoreCase : bool }.

(** [re.test(s)] on a freshly created [re]. *)
Definition test (re : t) (s : string) : bool :=
  search (ignoreCase re) (pattern re) 0 s.

End RegExp.

(* ================================================================== *)
(** ** The editor API *)
(* ================================================================== *)

(** [vscode.FileType]: a bit set; a symbolic link to a file has kind
    [File | SymbolicLink]. *)
Module FileType.
Definition t : Type := N.
Definition Unknown : t := 0%N.
Definition File : t := 1%N.
Definition Directory : t := 2%N.
Definition SymbolicLink : t := 64%N.
End FileType.

(** [vscode.Uri], by its five components. *)
Record Uri : Type := {
  scheme : string;
  authority : string;
  path : string;
  query : string;
  fragment : string
}.

Record FileStat : Type := { ftype : FileType.t }.

Record Position : Type := { line : nat; character : nat }.

Record TextDocument : Type := {
  uri : Uri;
  fileName : string;
  getText : string
}.

Record DocumentLink : Type := {
  range : Position * Position;
  target : Uri
}.

(** One entry of the [cfml.mappings] setting; [isPhysicalDirectoryPath] is
    optional. *)
Record CFMLMapping : Type := {
  logicalPath : string;
  directoryPath : string;
  isPhysicalDirectoryPath : option bool
}.

Record LinkPattern : Type := {
  pattern : string;        (* source of the regular expression, flags [gi] *)
  linkIndex : nat
}.

(** A [RegExpExecArray]: [index] and the groups, the whole match first; a
    group that did not take part is [None]. *)
Record RegExpExecArray : Type := {
  index : nat;
  groups : list (option string)
}.

(** Errors a JavaScript run can raise. [OutsideModel] is not one of them:
    it marks a run this development does not describe, and says nothing
    of what the code does there. No statement below reads it as an error
    of the code. *)
Inductive JsError : Type :=
| SyntaxError
| TypeError
| UriError
| FileSystemError (code : string)
| OutsideModel.

Inductive outcome (A : Type) : Type :=
| Ok (a : A)
| Throw (e : JsError).

Arguments Ok {A} a.
Arguments Throw {A} e.

(** What the extension asks of the editor while it runs. *)
Inductive Event : Type :=
| EvStat (u : Uri)                 (* workspace.fs.stat *)
| EvReadDirectory (u : Uri)        (* workspace.fs.readDirectory *)
| EvGetWorkspaceFolder (u : Uri)   (* workspace.getWorkspaceFolder *)
| EvGetConfiguration (u : Uri).    (* workspace.getConfiguration("cfml", u) *)

(** The operations of the editor and of [utils/textUtil] that the two
    source files call. [Uri_parse] receives [None] when the code passes
    [undefined].

    [RegExp_execAll element text] is the list of the results that the
    successive calls [element.pattern.exec(text)] give, from [lastIndex]
    0 up to the [null] that ends the loop. The two patterns are fields of
    the provider and carry the flag [g], so [lastIndex] lives on them
    from one call of [provideDocumentLinks] to the next: the list
    describes a call that starts with [lastIndex] 0 and that no other
    call of the provider overlaps. Two calls whose callbacks interleave
    share [lastIndex] and are not described. *)
Record Host : Type := {
  Uri_parse : option string -> outcome Uri;
  Uri_file : string -> Uri;
  Uri_joinPath : Uri -> string -> outcome Uri;
  fsPath : Uri -> string;
  getWorkspaceFolder : Uri -> option Uri;
  getMappings : Uri -> list CFMLMapping;
  fs_stat : Uri -> outcome FileStat;
  fs_readDirectory : Uri -> outcome (list (string * FileType.t));
  isUri : string -> bool;
  RegExp_execAll : LinkPattern -> string -> list RegExpExecArray;
  positionAt : TextDocument -> Z -> Position
}.

(* ================================================================== *)
(** ** Runs: a log of editor requests and a result or an exception *)
(* ================================================================== *)

Definition M (A : Type) : Type := (list Event * outcome A)%type.

Definition ret {A} (a : A) : M A := ([], Ok a).

Definition bind {A B} (m : M A) (f : A -> M B) : M B :=
  match m with
  | (l, Ok a) => let (l', r) := f a in ((l ++ l')%list, r)
  | (l, Throw e) => (l, Throw e)
  end.

Definition lift {A} (o : outcome A) : M A := ([], o).

Definition emit (e : Event) : M unit := ([e], Ok tt).

(** [try { m } catch (e) { handler e }]. *)
Definition try_catch {A} (m : M A) (handler : JsError -> M A) : M A :=
  match m with
  | (l, Ok a) => (l, Ok a)
  | (l, Throw e) => let (l', r) := handler e in ((l ++ l')%list, r)
  end.

Definition events {A} (m : M A) : list Event := fst m.
Definition result {A} (m : M A) : outcome A := snd m.

Declare Scope run_scope.
Delimit Scope run_scope with run.
Notation "x <- m ;; k" := (bind m (fun x => k))
  (at level 61, m at next level, right associativity) : run_scope.
Notation "m ;;; k" := (bind m (fun _ => k))
  (at level 61, right associativity) : run_scope.
Local Open Scope run_scope.

(** [new RegExp(source)], for the sources [RegExp.compile] reads. A source
    outside that fragment (a character class, a back reference, ...) is
    accepted by JavaScript and gives [Throw OutsideModel] here: the run is
    not described. *)
Definition RegExp_new (source : string) : outcome RegExp.t :=
  match RegExp.compile source with
  | RegExp.Compiled r => Ok {| RegExp.pattern := r; RegExp.ignoreCase := false |}
  | RegExp.PatternSyntaxError => Throw SyntaxError
  | RegExp.PatternUnsupported => Throw OutsideModel
  end.

(** The literal [/\.cfc$/gi]. *)
Definition cfc_pattern : RegExp.t :=
  {| RegExp.pattern :=
       match RegExp.compile "\.cfc$" with
       | RegExp.Compiled r => r
       | _ => RegExp.REmpty
       end;
     RegExp.ignoreCase := true |}.

(** A string in a condition: the empty string is falsy. *)
Definition truthy (s : string) : bool := negb (String.eqb s "").

(* ================================================================== *)
(** ** utils/fileUtil.ts *)
(* ================================================================== *)

Definition filterDirectories (files : list (string * FileType.t))
  : list (string * FileType.t) :=
  filter (fun file => if N.eqb (snd file) FileType.Directory then true else false)
         files.

Definition filterComponents (files : list (string * FileType.t))
  : list (string * FileType.t) :=
  filter (fun file =>
            if N.eqb (snd file) FileType.File && RegExp.test cfc_pattern (fst file)
            then true else false)
         files.

Section FileUtil.

Variable h : Host.

Definition readDirectory (u : Uri) : M (list (string * FileType.t)) :=
  emit (EvReadDirectory u) ;;; lift (fs_readDirectory h u).

Definition getDirectories (srcPath : string) : M (list (string * FileType.t)) :=
  parsed <- lift (Uri_parse h (Some srcPath)) ;;
  files <- readDirectory parsed ;;
  ret (filterDirectories files).

Definition getComponents (srcPath : string) : M (list (string * FileType.t)) :=
  parsed <- lift (Uri_parse h (Some srcPath)) ;;
  files <- readDirectory parsed ;;
  ret (filterComponents files).

Definition stat (u : Uri) : M FileStat :=
  emit (EvStat u) ;;; lift (fs_stat h u).

Definition fileExists (path : string) : M bool :=
  try_catch (stat (Uri_file h path) ;;; ret true)
            (fun _ => ret false).

Definition resolveRelativePath (baseUri : Uri) (appendingPath : string)
  : M string :=
  joined <- lift (Uri_joinPath h baseUri appendingPath) ;;
  ret (fsPath h joined).

Definition resolveRootPath (baseUri : Uri) (appendingPath : string)
  : M (option string) :=
  emit (EvGetWorkspaceFolder baseUri) ;;;
  match getWorkspaceFolder h baseUri with
  | None => ret None
  | Some root =>
      joined <- lift (Uri_joinPath h root appendingPath) ;;
      ret (Some (fsPath h joined))
  end.

(** The pattern source built by the template literal, in which [\/] is
    the character [/]. *)
Definition logicalPathStartSource (slicedLogicalPath : string) : string :=
  "^" ++ slicedLogicalPath ++ "(?:/|$)".

(** [new RegExp(...)] on that source, and [logicalPathStartPattern.test]
    on the normalized path. *)
Definition logicalPathStartTest (slicedLogicalPath normalizedPath : string)
  : outcome bool :=
  match RegExp_new (logicalPathStartSource slicedLogicalPath) with
  | Ok logicalPathStartPattern =>
      Ok (RegExp.test logicalPathStartPattern normalizedPath)
  | Throw e => Throw e
  end.

(** The body of [for (const cfmlMapping of cfmlMappings)]. *)
Fixpoint mappingLoop (baseUri : Uri) (appendingPath normalizedPath : string)
         (cfmlMappings : list CFMLMapping) (customMappingPaths : list string)
  : M (list string) :=
  match cfmlMappings with
  | [] => ret customMappingPaths
  | cfmlMapping :: rest =>
      let slicedLogicalPath := JsString.slice 1 (logicalPath cfmlMapping) in
      matched <- lift (logicalPathStartTest slicedLogicalPath normalizedPath) ;;
      if matched then
        directoryPath <-
          match isPhysicalDirectoryPath cfmlMapping with
          | None | Some true => ret (Some (directoryPath cfmlMapping))
          | Some false => resolveRootPath baseUri (directoryPath cfmlMapping)
          end ;;
        parsed <- lift (Uri_parse h directoryPath) ;;
        joined <-
          lift (Uri_joinPath h parsed
                  (JsString.slice (String.length slicedLogicalPath) appendingPath)) ;;
        mappingLoop baseUri appendingPath normalizedPath rest
                    (customMappingPaths ++ [fsPath h joined])%list
      else
        mappingLoop baseUri appendingPath normalizedPath rest customMappingPaths
  end.

Definition resolveCustomMappingPaths (baseUri : Uri) (appendingPath : string)
  : M (list string) :=
  emit (EvGetConfiguration baseUri) ;;;
  let cfmlMappings := getMappings h baseUri in
  let normalizedPath := JsString.replaceAll "\" "/" appendingPath in
  mappingLoop baseUri appendingPath normalizedPath cfmlMappings [].

(** The body of [for (const mappedPath of customMappingPaths)]. *)
Fixpoint mappedLoop (normalizedPath : string) (customMappingPaths : list string)
         (paths : list string) : M (list string) :=
  match customMappingPaths with
  | [] => ret paths
  | mappedPath :: rest =>
      found <- fileExists mappedPath ;;
      if found then
        let paths := (paths ++ [mappedPath])%list in
        if (0 <? String.length normalizedPath)%nat then ret paths
        else mappedLoop normalizedPath rest paths
      else mappedLoop normalizedPath rest paths
  end.

Definition resolveDottedPaths (dotPath : string) (baseUri : Uri)
  : M (list string) :=
  let paths : list string := [] in
  let normalizedPath := JsString.replaceAll "." "/" dotPath in
  (* relative to local directory *)
  localPath <- resolveRelativePath baseUri normalizedPath ;;
  localFound <- fileExists localPath ;;
  let paths := if localFound then (paths ++ [localPath])%list else paths in
  if localFound && (0 <? String.length normalizedPath)%nat then ret paths
  else
    (* relative to web root *)
    rootPath <- resolveRootPath baseUri normalizedPath ;;
    rootFound <-
      match rootPath with
      | Some p => if truthy p then fileExists p else ret false
      | None => ret false
      end ;;
    let paths :=
      match rootPath with
      | Some p => if rootFound then (paths ++ [p])%list else paths
      | None => paths
      end in
    if rootFound && (0 <? String.length normalizedPath)%nat then ret paths
    else
      (* custom mappings *)
      customMappingPaths <- resolveCustomMappingPaths baseUri normalizedPath ;;
      mappedLoop normalizedPath customMappingPaths paths.

End FileUtil.

(* ================================================================== *)
(** ** Asynchronous callbacks over the array [results]

    An [async] function runs synchronously up to its first [await]; what
    follows the [await] runs in a later job, on the array as it is then.
    [results] is one array, shared by the callbacks and by whoever holds
    the value the provider returned. *)
(* ================================================================== *)

Definition Store : Type := list DocumentLink.

#[warnings="-register-all"]
Inductive Async : Type :=
| Settled
| Await (resume : Store -> Store * Async).

(** [l.forEach(callback)]: each call runs to its first [await]; the promise
    it returns is dropped, the suspended call stays behind. *)
Fixpoint forEach {A} (l : list A) (callback : A -> Store -> Store * Async)
         (st : Store) : Store * list Async :=
  match l with
  | [] => (st, [])
  | x :: l' =>
      let (st1, p) := callback x st in
      let (st2, ps) := forEach l' callback st1 in
      (st2, p :: ps)
  end.

(** One job of the event loop: the suspended call [n] runs to its next
    [await] or to its end. *)
Fixpoint resumeNth (n : nat) (tasks : list Async) (st : Store)
  : Store * list Async :=
  match tasks, n with
  | [], _ => (st, [])
  | Settled :: ts, O => (st, Settled :: ts)
  | Await k :: ts, O => let (st', t') := k st in (st', t' :: ts)
  | t :: ts, S n' => let (st', ts') := resumeNth n' ts st in (st', t :: ts')
  end.

(** The jobs of a schedule, in order. A schedule is any list of indices:
    the orders in which the event loop can run the jobs are among the
    schedules, and a schedule need not be one of them. What holds of
    every schedule holds of the run of the event loop; that some schedule
    does something says nothing of it. *)
Fixpoint runJobs (schedule : list nat) (tasks : list Async) (st : Store)
  : Store * list Async :=
  match schedule with
  | [] => (st, tasks)
  | n :: schedule' =>
      let (st', tasks') := resumeNth n tasks st in
      runJobs schedule' tasks' st'
  end.

Definition allSettled (tasks : list Async) : Prop :=
  Forall (fun t => t = Settled) tasks.

(* ================================================================== *)
(** ** features/documentLinkProvider.ts *)
(* ================================================================== *)

Definition dquote : string := String "034" EmptyString.

Definition linkPatterns : list LinkPattern :=
  [ (* attribute/value link *)
    {| pattern := "\b(href|src|template|action|url)\s*(?:=|:|\()\s*(['"
                  ++ dquote ++ "])([^'" ++ dquote ++ "]+?)\2";
       linkIndex := 3 |};
    (* include script *)
    {| pattern := "\binclude\s+(['" ++ dquote ++ "])([^'" ++ dquote ++ "]+?)\1";
       linkIndex := 2 |} ].

(** [match[i]]: [undefined] past the end and for a group that did not take
    part. *)
Definition group (m : RegExpExecArray) (i : nat) : option string :=
  match nth_error (groups m) i with
  | Some g => g
  | None => None
  end.

Section DocumentLinkProvider.

Variable h : Host.

Definition resolveLink (document : TextDocument) (link : string)
  : M (option Uri) :=
  if JsString.startsWith link "#" then ret None
  else
    (* Check for URI *)
    asUri <-
      (if isUri h link then
         try_catch
           (parsed <- lift (Uri_parse h (Some link)) ;;
            if truthy (scheme parsed) then ret (Some parsed) else ret None)
           (fun _ => ret None)
       else ret None) ;;
    match asUri with
    | Some parsed => ret (Some parsed)
    | None =>
        (* Check for relative local file *)
        let linkPath := JsString.beforeQueryOrFragment link in
        resourcePath <-
          (if truthy linkPath && JsString.startsWith linkPath "/" then
             (* Relative to root *)
             emit (EvGetWorkspaceFolder (uri document)) ;;;
             match getWorkspaceFolder h (uri document) with
             | Some root =>
                 joined <- lift (Uri_joinPath h root linkPath) ;;
                 ret (Some joined)
             | None => ret None
             end
           else
             (* Relative to document location *)
             base <- lift (Uri_parse h (Some (fileName document))) ;;
             joined <- lift (Uri_joinPath h base linkPath) ;;
             ret (Some joined)) ;;
        match resourcePath with
        | Some resource =>
            found <- fileExists h (fsPath h resource) ;;
            if found then
              fileStat <- stat h resource ;;
              if N.eqb (ftype fileStat) FileType.File
              then ret (Some resource) else ret None
            else ret None
        | None => ret None
        end
    end.

(** The loop [while ((match = pattern.exec(documentText)))] of one
    callback, over the successive results of [exec]. The call is
    suspended at [await this.resolveLink(...)]; the job that resumes it
    pushes the link and goes on with the next match. *)
Fixpoint linkLoop (document : TextDocument) (linkIndex : nat)
         (matches : list RegExpExecArray) (results : Store) : Store * Async :=
  match matches with
  | [] => (results, Settled)
  | m :: rest =>
      match group m linkIndex, group m 0 with
      | Some link, Some whole =>
          let preLen := JsString.indexOf whole link in
          let offset := (Z.of_nat (index m) + preLen)%Z in
          let linkStart := positionAt h document offset in
          let linkEnd :=
            positionAt h document (offset + Z.of_nat (String.length link))%Z in
          let resolved := result (resolveLink document link) in
          (results,
           Await (fun results =>
                    let results :=
                      match resolved with
                      | Ok (Some target) =>
                          (results ++
                             [{| range := (linkStart, linkEnd);
                                 target := target |}])%list
                      | Ok None => results
                      | Throw _ => results          (* catch: noop *)
                      end in
                    linkLoop document linkIndex rest results))
      | _, _ =>
          (* [link.length] on [undefined]: the callback's promise rejects *)
          (results, Settled)
      end
  end.

(** [provideDocumentLinks]: the content of [results] at [return results],
    when the provider's promise settles, and the callbacks still
    suspended then, which share the array. *)
Definition provideDocumentLinks (document : TextDocument)
  : Store * list Async :=
  let results : Store := [] in
  let documentText := getText document in
  forEach linkPatterns
          (fun element =>
             linkLoop document (linkIndex element)
                      (RegExp_execAll h element documentText))
          results.

End DocumentLinkProvider.

(* ================================================================== *)
(** ** A host for closed examples

    A small editor over posix paths: a table of the entries on disk, at
    most one workspace folder, one mapping table.  [parse] reads
    [undefined] as the text [undefined] and gives a text without a scheme
    the scheme [file] and a leading [/], as the editor's non-strict
    [Uri.parse] does; [joinPath] rejects a Uri without a path. *)
(* ================================================================== *)

Module SampleHost.

Definition fileUri (p : string) : Uri :=
  {| scheme := "file"; authority := ""; path := p; query := ""; fragment := "" |}.

Definition is_letter (c : ascii) : bool :=
  let n := nat_of_ascii c in
  (((65 <=? n) && (n <=? 90)) || ((97 <=? n) && (n <=? 122)))%nat.

(** [scheme:rest], for a scheme made of letters. *)
Fixpoint splitScheme (s : string) : option (string * string) :=
  match s with
  | EmptyString => None
  | String c s' =>
      if Ascii.eqb c ":" then Some (EmptyString, s')
      else if is_letter c then
        match splitScheme s' with
        | Some (a, b) => Some (String c a, b)
        | None => None
        end
      else None
  end.

Definition parse (value : option string) : outcome Uri :=
  let text := match value with Some s => s | None => "undefined" end in
  match splitScheme text with
  | Some (String c sch, rest) =>
      Ok {| scheme := String c sch; authority := ""; path := rest;
            query := ""; fragment := "" |}
  | _ =>
      Ok (fileUri (if JsString.startsWith text "/" then text else "/" ++ text))
  end.

Definition joinPosix (a b : string) : string :=
  match b with
  | EmptyString => a
  | String "/" _ => a ++ b
  | _ => a ++ "/" ++ b
  end.

Definition joinPath (u : Uri) (appending : string) : outcome Uri :=
  if String.eqb (path u) "" then Throw UriError
  else Ok {| scheme := scheme u; authority := authority u;
             path := joinPosix (path u) appending;
             query := query u; fragment := fragment u |}.

Fixpoint lookup (p : string) (disk : list (string * FileType.t))
  : option FileType.t :=
  match disk with
  | [] => None
  | (q, k) :: disk' => if String.eqb p q then Some k else lookup p disk'
  end.

Definition statOn (disk : list (string * FileType.t)) (u : Uri)
  : outcome FileStat :=
  match lookup (path u) disk with
  | Some k => Ok {| ftype := k |}
  | None => Throw (FileSystemError "FileNotFound")
  end.

Definition hasScheme (s : string) : bool :=
  match splitScheme s with
  | Some (String _ _, _) => true
  | _ => false
  end.

Definition host (disk : list (string * FileType.t)) (root : option string)
           (mappings : list CFMLMapping)
           (execAll : LinkPattern -> string -> list RegExpExecArray) : Host :=
  {| Uri_parse := parse;
     Uri_file := fileUri;
     Uri_joinPath := joinPath;
     fsPath := path;
     getWorkspaceFolder := fun _ => option_map fileUri root;
     getMappings := fun _ => mappings;
     fs_stat := statOn disk;
     fs_readDirectory := fun _ => Throw (FileSystemError "FileNotADirectory");
     isUri := hasScheme;
     RegExp_execAll := execAll;
     positionAt := fun _ offset => {| line := 0; character := Z.to_nat offset |} |}.

End SampleHost.

(* ================================================================== *)
(** ** The steps of [resolveCustomMappingPaths], named

    The expressions of the loop body at lines 140 to 145, each under a
    name, for the statements about the loop. They are the code's own
    steps, not the specification's notions: [remainder] cuts as many
    characters as the text of the stripped logical path has, whatever
    the pattern matched. *)
(* ================================================================== *)

(** [cfmlMapping.isPhysicalDirectoryPath === undefined ||
    cfmlMapping.isPhysicalDirectoryPath ? cfmlMapping.directoryPath :
    resolveRootPath(baseUri, cfmlMapping.directoryPath)]. [Ok None] is
    [undefined]. *)
Definition effectiveBase (h : Host) (baseUri : Uri) (mapping : CFMLMapping)
  : outcome (option string) :=
  match isPhysicalDirectoryPath mapping with
  | None | Some true => Ok (Some (directoryPath mapping))
  | Some false => result (resolveRootPath h baseUri (directoryPath mapping))
  end.

(** [appendingPath.slice(slicedLogicalPath.length)]. *)
Definition remainder (mapping : CFMLMapping) (appendingPath : string) : string :=
  JsString.slice (String.length (JsString.slice 1 (logicalPath mapping)))
                 appendingPath.

(** [Uri.joinPath(Uri.parse(directoryPath),
    appendingPath.slice(slicedLogicalPath.length)).fsPath]. *)
Definition mappingCandidate (h : Host) (baseUri : Uri) (appendingPath : string)
           (mapping : CFMLMapping) : outcome string :=
  match effectiveBase h baseUri mapping with
  | Ok base =>
      match Uri_parse h base with
      | Ok parsed =>
          match Uri_joinPath h parsed (remainder mapping appendingPath) with
          | Ok joined => Ok (fsPath h joined)
          | Throw e => Throw e
          end
      | Throw e => Throw e
      end
  | Throw e => Throw e
  end.

(** [logicalPathStartPattern.test(normalizedPath)], the pattern built
    from the stripped logical path. *)
Definition mappingTest (normalizedPath : string) (mapping : CFMLMapping)
  : outcome bool :=
  logicalPathStartTest (JsString.slice 1 (logicalPath mapping)) normalizedPath.

(* ================================================================== *)
(** ** Vocabulary of the specification *)
(* ================================================================== *)

(** [l1] is [l2] with some entries removed, the others in their order. *)
Inductive Subsequence {A : Type} : list A -> list A -> Prop :=
| Subsequence_nil : Subsequence [] []
| Subsequence_keep x l1 l2 : Subsequence l1 l2 -> Subsequence (x :: l1) (x :: l2)
| Subsequence_drop x l1 l2 : Subsequence l1 l2 -> Subsequence l1 (x :: l2).

Fixpoint toUpper (s : string) : string :=
  match s with
  | EmptyString => EmptyString
  | String c s' => String (RegExp.canonicalize c) (toUpper s')
  end.

(** [s] ends with [suffix], letter case apart. *)
Definition endsWithIgnoreCase (s suffix : string) : Prop :=
  exists p t, s = p ++ t /\ toUpper t = toUpper suffix.

(** No character of [s] has a meaning of its own in a pattern. *)
Fixpoint isLiteral (s : string) : bool :=
  match s with
  | EmptyString => true
  | String c s' => negb (RegExp.is_special c) && isLiteral s'
  end.

(** The probe of the file system finds an entry at [path]. *)
Definition existsOnDisk (h : Host) (path : string) : bool :=
  match fs_stat h (Uri_file h path) with
  | Ok _ => true
  | Throw _ => false
  end.

Definition optionToList {A} (o : option A) : list A :=
  match o with Some a => [a] | None => [] end.

(** The terms a run of ordinary characters compiles to. *)
Fixpoint literalTerms (s : string) : list RegExp.regex :=
  match s with
  | EmptyString => []
  | String c s' => RegExp.RChar c :: literalTerms s'
  end.

(** The group [(?:/|$)] that closes the pattern of a mapping. *)
Definition separatorOrEnd : RegExp.regex :=
  RegExp.RAlt (RegExp.RSeq (RegExp.RChar "/") RegExp.REmpty)
              (RegExp.RSeq RegExp.REol RegExp.REmpty).

(** The rule of the specification: [path] is [prefix], or [prefix], a
    separator and more. *)
Definition isPrefixOfSegments (prefix path : string) : Prop :=
  path = prefix \/ exists rest, path = prefix ++ "/" ++ rest.

(** The same rule as a test. *)
Definition matchesPrefix (prefix path : string) : bool :=
  String.eqb path prefix || JsString.startsWith path (prefix ++ "/").

(** The logical prefix of a mapping without its leading separator. *)
Definition strippedPrefix (mapping : CFMLMapping) : string :=
  match logicalPath mapping with
  | EmptyString => EmptyString
  | String _ prefix => prefix
  end.

(** [base] is the effective physical base of [mapping]: its directory
    path as it is, or, when [isPhysicalDirectoryPath] is false, that path
    joined onto the project root of [baseUri]. *)
Definition isPhysicalBase (h : Host) (baseUri : Uri) (mapping : CFMLMapping)
           (base : string) : Prop :=
  match isPhysicalDirectoryPath mapping with
  | Some false =>
      exists root joined,
        getWorkspaceFolder h baseUri = Some root /\
        Uri_joinPath h root (directoryPath mapping) = Ok joined /\
        base = fsPath h joined
  | _ => base = directoryPath mapping
  end.

(** [candidate] is the candidate of [mapping] for [path]: the effective
    physical base joined with what follows the stripped prefix in
    [path]. *)
Definition isCandidateOf (h : Host) (baseUri : Uri) (path : string)
           (mapping : CFMLMapping) (candidate : string) : Prop :=
  exists base rest parsed joined,
    isPhysicalBase h baseUri mapping base /\
    path = strippedPrefix mapping ++ rest /\
    Uri_parse h (Some base) = Ok parsed /\
    Uri_joinPath h parsed rest = Ok joined /\
    candidate = fsPath h joined.

(** A mapping whose stripped prefix is made of ordinary characters and
    which, when its directory is relative to the project root, has one
    for [baseUri]. *)
Definition plainMapping (h : Host) (baseUri : Uri) (mapping : CFMLMapping) : Prop :=
  isLiteral (strippedPrefix mapping) = true /\
  (isPhysicalDirectoryPath mapping = Some false ->
   getWorkspaceFolder h baseUri <> None).

Fixpoint hasSeparator (s : string) : bool :=
  match s with
  | EmptyString => false
  | String c s' => Ascii.eqb c "/" || hasSeparator s'
  end.

(** The directory that contains the entry at [p]: [p] up to its last
    separator. *)
Fixpoint containingDirectory (p : string) : string :=
  match p with
  | EmptyString => EmptyString
  | String c p' => if hasSeparator p' then String c (containingDirectory p') else EmptyString
  end.

Definition noLinks : LinkPattern -> string -> list RegExpExecArray :=
  fun _ _ => [].

(** A component next to the requesting document: [/proj/dir/page.cfc] asks
    for [a.b], and [/proj/dir/a/b] is on disk. *)
Definition siblingHost : Host :=
  SampleHost.host [("/proj/dir/page.cfc", FileType.File);
                   ("/proj/dir/a/b", FileType.File)]
                  None [] noLinks.

(** The requests that look at the file system. *)
Definition isProbe (e : Event) : bool :=
  match e with
  | EvStat _ | EvReadDirectory _ => true
  | _ => false
  end.

(** The host [h] over another file system. *)
Definition withDisk (h : Host) (disk : Uri -> outcome FileStat) : Host :=
  {| Uri_parse := Uri_parse h;
     Uri_file := Uri_file h;
     Uri_joinPath := Uri_joinPath h;
     fsPath := fsPath h;
     getWorkspaceFolder := getWorkspaceFolder h;
     getMappings := getMappings h;
     fs_stat := disk;
     fs_readDirectory := fs_readDirectory h;
     isUri := isUri h;
     RegExp_execAll := RegExp_execAll h;
     positionAt := positionAt h |}.

(** A document outside every workspace folder, and a mapping whose
    directory is relative to the project root. *)
Definition rootlessHost : Host :=
  SampleHost.host [("/undefined/bar", FileType.File)] None
                  [{| logicalPath := "/foo"; directoryPath := "lib";
                      isPhysicalDirectoryPath := Some false |}]
                  noLinks.

(** A mapping whose logical path is not a pattern. *)
Definition plusPlusHost : Host :=
  SampleHost.host [] None
                  [{| logicalPath := "/c++"; directoryPath := "/lib";
                      isPhysicalDirectoryPath := None |}]
                  noLinks.

(** A mapping whose logical path reads as a pattern with a quantifier,
    and the mapping whose logical path is the text that pattern matches
    in [ccc/x]. *)
Definition quantifierHost : Host :=
  SampleHost.host [] None
                  [{| logicalPath := "/c+"; directoryPath := "/lib";
                      isPhysicalDirectoryPath := None |}]
                  noLinks.

Definition tripleHost : Host :=
  SampleHost.host [] None
                  [{| logicalPath := "/ccc"; directoryPath := "/lib";
                      isPhysicalDirectoryPath := None |}]
                  noLinks.

(** Two mappings of the prefix [/foo], one physical and one relative to
    the project root [/proj], around a mapping of another prefix; nothing
    on disk. *)
Definition stackedHost : Host :=
  SampleHost.host [] (Some "/proj")
                  [{| logicalPath := "/foo"; directoryPath := "/lib1";
                      isPhysicalDirectoryPath := None |};
                   {| logicalPath := "/bar"; directoryPath := "/other";
                      isPhysicalDirectoryPath := Some true |};
                   {| logicalPath := "/foo"; directoryPath := "lib2";
                      isPhysicalDirectoryPath := Some false |}]
                  noLinks.

(** A local, a root and a mapping candidate, all on disk. *)
Definition threeTierHost : Host :=
  SampleHost.host [("/proj/dir/a/b", FileType.File);
                   ("/proj/a/b", FileType.File);
                   ("/lib/b", FileType.File);
                   ("/proj/dir", FileType.Directory);
                   ("/proj", FileType.Directory);
                   ("/lib", FileType.Directory)]
                  (Some "/proj")
                  [{| logicalPath := "/a"; directoryPath := "/lib";
                      isPhysicalDirectoryPath := None |};
                   {| logicalPath := "/"; directoryPath := "/lib";
                      isPhysicalDirectoryPath := None |}]
                  noLinks.

(** A file system that fails every probe. *)
Definition unreachableDisk : Uri -> outcome FileStat :=
  fun _ => Throw (FileSystemError "Unavailable").

(** The links one callback pushes once its jobs have run: one for each
    match whose link text resolves, in the order of the matches. *)
Fixpoint linkEntries (h : Host) (document : TextDocument) (linkIndex : nat)
         (matches : list RegExpExecArray) : list DocumentLink :=
  match matches with
  | [] => []
  | m :: rest =>
      match group m linkIndex, group m 0 with
      | Some link, Some whole =>
          let offset := (Z.of_nat (index m) + JsString.indexOf whole link)%Z in
          (match result (resolveLink h document link) with
           | Ok (Some target) =>
               [{| range := (positionAt h document offset,
                             positionAt h document
                                        (offset + Z.of_nat (String.length link))%Z);
                   target := target |}]
           | _ => []
           end ++ linkEntries h document linkIndex rest)%list
      | _, _ => []
      end
  end.

(** The links of a document: those of every pattern. *)
Definition documentEntries (h : Host) (document : TextDocument)
  : list (list DocumentLink) :=
  map (fun element =>
         linkEntries h document (linkIndex element)
                     (RegExp_execAll h element (getText document)))
      linkPatterns.

(** A callback suspended before the matches [matches]. *)
Definition suspendedAt (h : Host) (document : TextDocument) (linkIndex : nat)
           (matches : list RegExpExecArray) : Async :=
  snd (linkLoop h document linkIndex matches []).

(** The document [<img src='/a/b.png'>] of the workspace [/proj], and the
    match of the first pattern in it. *)
Definition imgDocument : TextDocument :=
  {| uri := SampleHost.fileUri "/proj/page.cfm";
     fileName := "/proj/page.cfm";
     getText := "<img src='/a/b.png'>" |}.

Definition imgMatches (element : LinkPattern) (text : string)
  : list RegExpExecArray :=
  if Nat.eqb (linkIndex element) 3 && String.eqb text "<img src='/a/b.png'>"
  then [{| index := 5;
           groups := [Some "src='/a/b.png'"; Some "src"; Some "'"; Some "/a/b.png"] |}]
  else [].

Definition imgHost : Host :=
  SampleHost.host [("/proj/a/b.png", FileType.File);
                   ("/proj/page.cfm", FileType.File)]
                  (Some "/proj") [] imgMatches.

(** [task] is a callback of [document] and [pending] the links it has
    still to push. *)
Definition Pending (h : Host) (document : TextDocument) (task : Async)
           (pending : list DocumentLink) : Prop :=
  exists linkIndex matches,
    task = suspendedAt h document linkIndex matches /\
    pending = linkEntries h document linkIndex matches.

(** The candidates probed by a loop that stops at the first one found. *)
Fixpoint probedUntilFound (found : string -> bool) (candidates : list string)
  : list string :=
  match candidates with
  | [] => []
  | candidate :: rest =>
      if found candidate then [candidate]
      else candidate :: probedUntilFound found rest
  end.

(** The host [h] with one answer to every [readDirectory]. *)
Definition withListing (h : Host)
           (listing : outcome (list (string * FileType.t))) : Host :=
  {| Uri_parse := Uri_parse h;
     Uri_file := Uri_file h;
     Uri_joinPath := Uri_joinPath h;
     fsPath := fsPath h;
     getWorkspaceFolder := getWorkspaceFolder h;
     getMappings := getMappings h;
     fs_stat := fs_stat h;
     fs_readDirectory := fun _ => listing;
     isUri := isUri h;
     RegExp_execAll := RegExp_execAll h;
     positionAt := positionAt h |}.

(** A listing with a directory, two components, a text file and a
    symbolic link to a component. *)
Definition sampleListing : list (string * FileType.t) :=
  [("models", FileType.Directory); ("User.cfc", FileType.File);
   ("notes.txt", FileType.File); ("Order.CFC", FileType.File);
   ("Linked.cfc", 65%N)].

(** The host [h] whose [isUri] accepts nothing. *)
Definition withoutUris (h : Host) : Host :=
  {| Uri_parse := Uri_parse h;
     Uri_file := Uri_file h;
     Uri_joinPath := Uri_joinPath h;
     fsPath := fsPath h;
     getWorkspaceFolder := getWorkspaceFolder h;
     getMappings := getMappings h;
     fs_stat := fs_stat h;
     fs_readDirectory := fs_readDirectory h;
     isUri := fun _ => false;
     RegExp_execAll := RegExp_execAll h;
     positionAt := positionAt h |}.

(** A host that takes every link text for a URI and whose [Uri.parse]
    rejects the texts that start with a separator. *)
Definition strictParseHost : Host :=
  {| Uri_parse := fun value =>
       match value with
       | Some (String "/" _) => Throw UriError
       | _ => SampleHost.parse value
       end;
     Uri_file := SampleHost.fileUri;
     Uri_joinPath := SampleHost.joinPath;
     fsPath := path;
     getWorkspaceFolder := fun _ => Some (SampleHost.fileUri "/proj");
     getMappings := fun _ => [];
     fs_stat := SampleHost.statOn [("/proj/a/b.png", FileType.File)];
     fs_readDirectory := fun _ => Throw (FileSystemError "FileNotADirectory");
     isUri := fun _ => true;
     RegExp_execAll := noLinks;
     positionAt := fun _ offset => {| line := 0; character := Z.to_nat offset |} |}.

(* ================================================================== *)
(** ** Regular expressions: the two patterns of [fileUtil.ts] *)
(* ================================================================== *)

Lemma search_iff ic r s : forall i,
  RegExp.search ic r i s = true <->
  exists p t, s = p ++ t /\ RegExp.rmatch ic r (i + String.length p) t RegExp.accept = true.
Proof.
  induction s as [|c s IH]; intros i; simpl.
  - rewrite orb_false_r. split.
    + intros H. exists "", "". simpl. rewrite Nat.add_0_r. auto.
    + intros (p & t & E & H). destruct p; simpl in E; [|discriminate].
      subst t. simpl in H. rewrite Nat.add_0_r in H. exact H.
  - rewrite orb_true_iff, IH. split.
    + intros [H | (p & t & E & H)].
      * exists "", (String c s). simpl. rewrite Nat.add_0_r. auto.
      * exists (String c p), t. simpl. rewrite E, <- plus_n_Sm. auto.
    + intros (p & t & E & H). destruct p as [|d p]; simpl in E.
      * left. subst t. simpl in H. rewrite Nat.add_0_r in H. exact H.
      * right. injection E as -> ->. exists p, t. simpl in H.
        rewrite <- plus_n_Sm in H. auto.
Qed.

Lemma cfc_pattern_compiled :
  RegExp.pattern cfc_pattern =
  RegExp.seq_of
    [RegExp.RChar "."; RegExp.RChar "c"; RegExp.RChar "f"; RegExp.RChar "c";
     RegExp.REol].
Proof. reflexivity. Qed.

Lemma char_eq_ignoreCase a b :
  RegExp.char_eq true a b = true <-> RegExp.canonicalize a = RegExp.canonicalize b.
Proof. unfold RegExp.char_eq. apply Ascii.eqb_eq. Qed.

(** [/\.cfc$/gi.test(name)] holds exactly of the names that end with
    [.cfc], letter case apart. *)
Lemma cfc_test_iff name :
  RegExp.test cfc_pattern name = true <-> endsWithIgnoreCase name ".cfc".
Proof.
  unfold RegExp.test, endsWithIgnoreCase.
  rewrite search_iff, cfc_pattern_compiled.
  change (RegExp.ignoreCase cfc_pattern) with true.
  split; intros (p & t & E & H); exists p, t; (split; [exact E|]).
  - destruct t as [|a [|b [|c [|d [|e t]]]]];
      cbn -[RegExp.char_eq RegExp.canonicalize] in H;
      rewrite ?andb_false_r in H; try discriminate.
    rewrite !andb_true_iff, !char_eq_ignoreCase in H.
    destruct H as (Ha & Hb & Hc & Hd & _).
    cbn -[RegExp.canonicalize]. congruence.
  - destruct t as [|a [|b [|c [|d [|e t]]]]];
      cbn -[RegExp.canonicalize] in H; try discriminate.
    injection H as Ha Hb Hc Hd.
    cbn -[RegExp.char_eq RegExp.canonicalize].
    rewrite !andb_true_iff, !char_eq_ignoreCase. auto.
Qed.

(* ================================================================== *)
(** ** The directory and component filters *)
(* ================================================================== *)

Lemma filter_Subsequence {A} (keep : A -> bool) (l : list A) :
  Subsequence (filter keep l) l.
Proof.
  induction l as [|x l IH]; simpl.
  - constructor.
  - destruct (keep x); constructor; exact IH.
Qed.

Lemma in_filterDirectories files file :
  In file (filterDirectories files) <->
  In file files /\ snd file = FileType.Directory.
Proof.
  unfold filterDirectories, FileType.t in *. rewrite filter_In. cbv beta.
  destruct (N.eqb_spec (snd file) FileType.Directory); intuition congruence.
Qed.

Lemma in_filterComponents files file :
  In file (filterComponents files) <->
  In file files /\ snd file = FileType.File /\ endsWithIgnoreCase (fst file) ".cfc".
Proof.
  unfold filterComponents, FileType.t in *.
  rewrite filter_In, <- cfc_test_iff. cbv beta.
  destruct (N.eqb_spec (snd file) FileType.File); simpl.
  - destruct (RegExp.test cfc_pattern (fst file)); intuition congruence.
  - intuition congruence.
Qed.

(** C10. For every listing, [filterDirectories] keeps exactly the entries
    whose kind is Directory and [filterComponents] exactly the entries whose
    kind is File and whose name ends with [.cfc], letter case apart; both
    results are the listing with entries removed, in the listing's order;
    no entry is in both; [Foo.CFC] and [foo.cfc] are components,
    [foo.cfctxt] is not. *)
Theorem filters_keep_exactly (files : list (string * FileType.t)) :
  (forall file, In file (filterDirectories files) <->
                In file files /\ snd file = FileType.Directory) /\
  (forall file, In file (filterComponents files) <->
                In file files /\ snd file = FileType.File /\
                endsWithIgnoreCase (fst file) ".cfc") /\
  Subsequence (filterDirectories files) files /\
  Subsequence (filterComponents files) files /\
  (forall file, ~ (In file (filterDirectories files) /\
                   In file (filterComponents files))) /\
  filterComponents [("Foo.CFC", FileType.File); ("foo.cfc", FileType.File);
                    ("foo.cfctxt", FileType.File)]
  = [("Foo.CFC", FileType.File); ("foo.cfc", FileType.File)].
Proof.
  split; [intro; apply in_filterDirectories|].
  split; [intro; apply in_filterComponents|].
  split; [apply filter_Subsequence|].
  split; [apply filter_Subsequence|].
  split; [|reflexivity].
  intros file [Hd Hc].
  apply in_filterDirectories in Hd. apply in_filterComponents in Hc.
  destruct Hd as [_ Hd], Hc as [_ [Hc _]]. rewrite Hd in Hc. discriminate.
Qed.

(* ================================================================== *)
(** ** Runs: results and requests of a sequence *)
(* ================================================================== *)

Lemma result_bind {A B} (m : M A) (f : A -> M B) :
  result (bind m f) =
  match result m with
  | Ok a => result (f a)
  | Throw e => Throw e
  end.
Proof.
  destruct m as [l [a|e]]; simpl; [|reflexivity].
  destruct (f a); reflexivity.
Qed.

Lemma events_bind {A B} (m : M A) (f : A -> M B) :
  events (bind m f) =
  match result m with
  | Ok a => (events m ++ events (f a))%list
  | Throw e => events m
  end.
Proof.
  destruct m as [l [a|e]]; simpl; [|reflexivity].
  destruct (f a); reflexivity.
Qed.

Lemma bind_ret_l {A B} (a : A) (f : A -> M B) : bind (ret a) f = f a.
Proof. unfold bind, ret. destruct (f a); reflexivity. Qed.

Lemma events_bind_Forall {A B} (P : Event -> Prop) (m : M A) (f : A -> M B) :
  Forall P (events m) -> (forall a, Forall P (events (f a))) ->
  Forall P (events (bind m f)).
Proof.
  intros Hm Hf. rewrite events_bind. destruct (result m); [|exact Hm].
  apply Forall_app. split; [exact Hm | apply Hf].
Qed.

(* ================================================================== *)
(** ** The existence probe *)
(* ================================================================== *)

Lemma fileExists_run (h : Host) (path : string) :
  fileExists h path = ([EvStat (Uri_file h path)], Ok (existsOnDisk h path)).
Proof.
  unfold fileExists, stat, existsOnDisk, emit, lift, bind, try_catch, ret.
  destruct (fs_stat h (Uri_file h path)); reflexivity.
Qed.

Lemma result_fileExists h p : result (fileExists h p) = Ok (existsOnDisk h p).
Proof. rewrite fileExists_run. reflexivity. Qed.

Lemma events_fileExists h p : events (fileExists h p) = [EvStat (Uri_file h p)].
Proof. rewrite fileExists_run. reflexivity. Qed.

(** C9. For every path [fileExists] issues one [stat] and returns a
    boolean, never an exception: [true] when [stat] answers, [false] when
    it fails, whatever the failure. *)
Theorem fileExists_never_raises (h : Host) (path : string) :
  exists found : bool,
    fileExists h path = ([EvStat (Uri_file h path)], Ok found) /\
    (found = true <-> exists fileStat, fs_stat h (Uri_file h path) = Ok fileStat) /\
    (forall e, fs_stat h (Uri_file h path) = Throw e -> found = false).
Proof.
  exists (existsOnDisk h path). split; [apply fileExists_run|].
  unfold existsOnDisk.
  destruct (fs_stat h (Uri_file h path)) as [fileStat|e].
  - split; [split; eauto | discriminate].
  - split; [split; [discriminate | intros [? ?]; discriminate] | reflexivity].
Qed.

(* ================================================================== *)
(** ** Dotted paths: the local tier *)
(* ================================================================== *)

Lemma length_replaceAll a b s :
  String.length (JsString.replaceAll a b s) = String.length s.
Proof. induction s; simpl; congruence. Qed.

Lemma nonempty_normalized dotPath :
  dotPath <> "" ->
  (0 <? String.length (JsString.replaceAll "." "/" dotPath))%nat = true.
Proof.
  intros H. rewrite length_replaceAll. destruct dotPath; [contradiction|reflexivity].
Qed.



(* ================================================================== *)
(** ** Dotted paths: how many entries *)
(* ================================================================== *)

Lemma mappedLoop_nonempty h normalizedPath customMappingPaths :
  (0 <? String.length normalizedPath)%nat = true ->
  forall paths,
    result (mappedLoop h normalizedPath customMappingPaths paths) = Ok paths \/
    exists mappedPath,
      result (mappedLoop h normalizedPath customMappingPaths paths)
      = Ok (paths ++ [mappedPath])%list.
Proof.
  intros Hlen. induction customMappingPaths as [|mappedPath rest IH]; intros paths.
  - left. reflexivity.
  - cbn [mappedLoop]. rewrite result_bind, result_fileExists.
    destruct (existsOnDisk h mappedPath).
    + rewrite Hlen. right. exists mappedPath. reflexivity.
    + apply IH.
Qed.

Lemma mappedLoop_empty h customMappingPaths : forall paths,
  result (mappedLoop h "" customMappingPaths paths)
  = Ok (paths ++ filter (existsOnDisk h) customMappingPaths)%list.
Proof.
  induction customMappingPaths as [|mappedPath rest IH]; intros paths.
  - simpl. rewrite app_nil_r. reflexivity.
  - cbn [mappedLoop filter]. rewrite result_bind, result_fileExists.
    destruct (existsOnDisk h mappedPath); cbn [String.length Nat.ltb Nat.leb].
    + rewrite IH, <- app_assoc. reflexivity.
    + apply IH.
Qed.

Lemma resolveDottedPaths_nonempty h dotPath baseUri l :
  dotPath <> "" ->
  result (resolveDottedPaths h dotPath baseUri) = Ok l ->
  length l <= 1.
Proof.
  intros Hne. pose proof (nonempty_normalized dotPath Hne) as Hlen.
  unfold resolveDottedPaths.
  set (normalizedPath := JsString.replaceAll "." "/" dotPath) in *.
  rewrite result_bind.
  destruct (result (resolveRelativePath h baseUri normalizedPath))
    as [localPath|e]; [|discriminate].
  rewrite result_bind, result_fileExists.
  destruct (existsOnDisk h localPath); cbn [andb app].
  { rewrite Hlen. intros [= <-]. simpl. lia. }
  rewrite result_bind.
  destruct (result (resolveRootPath h baseUri normalizedPath))
    as [rootPath|e]; [|discriminate].
  rewrite result_bind.
  assert (Hmapping :
            result (customMappingPaths <-
                      resolveCustomMappingPaths h baseUri normalizedPath ;;
                    mappedLoop h normalizedPath customMappingPaths []) = Ok l ->
            length l <= 1).
  { rewrite result_bind.
    destruct (result (resolveCustomMappingPaths h baseUri normalizedPath))
      as [cands|e]; [|discriminate].
    destruct (mappedLoop_nonempty h normalizedPath cands Hlen []) as [E | [m E]];
      rewrite E; intros [= <-]; simpl; lia. }
  destruct rootPath as [p|]; [|exact Hmapping].
  destruct (truthy p); [|exact Hmapping].
  rewrite result_fileExists.
  destruct (existsOnDisk h p); cbn [andb]; [|exact Hmapping].
  rewrite Hlen. intros [= <-]. simpl. lia.
Qed.

Lemma resolveDottedPaths_empty h baseUri l :
  result (resolveDottedPaths h "" baseUri) = Ok l ->
  exists localPath rootPath customMappingPaths,
    result (resolveRelativePath h baseUri "") = Ok localPath /\
    result (resolveRootPath h baseUri "") = Ok rootPath /\
    result (resolveCustomMappingPaths h baseUri "") = Ok customMappingPaths /\
    l = (filter (existsOnDisk h) [localPath]
         ++ filter (fun p => truthy p && existsOnDisk h p) (optionToList rootPath)
         ++ filter (existsOnDisk h) customMappingPaths)%list.
Proof.
  unfold resolveDottedPaths. cbn [JsString.replaceAll String.length Nat.ltb Nat.leb].
  rewrite result_bind.
  destruct (result (resolveRelativePath h baseUri "")) as [localPath|e]; [|discriminate].
  rewrite result_bind, result_fileExists. rewrite andb_false_r.
  rewrite result_bind.
  destruct (result (resolveRootPath h baseUri "")) as [rootPath|e]; [|discriminate].
  rewrite result_bind.
  intros H. exists localPath, rootPath.
  assert (Hroot : exists rootFound,
             result match rootPath with
                    | Some p => if truthy p then fileExists h p else ret false
                    | None => ret false
                    end = Ok rootFound /\
             match rootPath with
             | Some p => if rootFound then [p] else []
             | None => []
             end = filter (fun p => truthy p && existsOnDisk h p) (optionToList rootPath)).
  { destruct rootPath as [p|]; simpl; [|eauto].
    destruct (truthy p); simpl; [|eauto].
    rewrite result_fileExists. eauto. }
  destruct Hroot as (rootFound & E1 & E2). rewrite E1 in H.
  rewrite andb_false_r, result_bind in H.
  destruct (result (resolveCustomMappingPaths h baseUri "")) as [cands|e]; [|discriminate].
  exists cands. repeat split.
  rewrite mappedLoop_empty in H. injection H as <-.
  rewrite <- E2. cbn [filter].
  destruct (existsOnDisk h localPath), rootPath as [p|];
    try destruct rootFound; simpl; reflexivity.
Qed.

(** C6. Whenever [resolveDottedPaths] returns a list: for a non-empty
    dotted path the list has at most one entry; a list of more than one
    entry is returned only when the normalized path is empty; and for the
    empty path the list is the local candidate if it exists, then the root
    candidate if it exists, then every mapping candidate that exists: an
    existing local or root candidate is recorded and the later tiers are
    still run. *)
Theorem resolveDottedPaths_entries (h : Host) (dotPath : string) (baseUri : Uri)
        (l : list string) :
  result (resolveDottedPaths h dotPath baseUri) = Ok l ->
  (dotPath <> "" -> length l <= 1) /\
  (1 < length l -> JsString.replaceAll "." "/" dotPath = "") /\
  (dotPath = "" ->
   exists localPath rootPath customMappingPaths,
     result (resolveRelativePath h baseUri "") = Ok localPath /\
     result (resolveRootPath h baseUri "") = Ok rootPath /\
     result (resolveCustomMappingPaths h baseUri "") = Ok customMappingPaths /\
     l = (filter (existsOnDisk h) [localPath]
          ++ filter (fun p => truthy p && existsOnDisk h p) (optionToList rootPath)
          ++ filter (existsOnDisk h) customMappingPaths)%list).
Proof.
  intros H. split; [|split].
  - intros Hne. exact (resolveDottedPaths_nonempty h dotPath baseUri l Hne H).
  - intros Hlen. destruct dotPath as [|c s]; [reflexivity|].
    assert (Hne : String c s <> "") by discriminate.
    pose proof (resolveDottedPaths_nonempty h _ baseUri l Hne H). lia.
  - intros ->. exact (resolveDottedPaths_empty h baseUri l H).
Qed.

(** The empty dotted path collects the base directory, the root and the
    directory of the mapping [/]. *)
Lemma resolveDottedPaths_entries_witness :
  result (resolveDottedPaths threeTierHost "" (SampleHost.fileUri "/proj/dir"))
  = Ok ["/proj/dir"; "/proj"; "/lib"] /\
  (("" <> "" -> length ["/proj/dir"; "/proj"; "/lib"] <= 1) /\
   (1 < length ["/proj/dir"; "/proj"; "/lib"] -> JsString.replaceAll "." "/" "" = "") /\
   ("" = "" ->
    exists localPath rootPath customMappingPaths,
      result (resolveRelativePath threeTierHost (SampleHost.fileUri "/proj/dir") "")
      = Ok localPath /\
      result (resolveRootPath threeTierHost (SampleHost.fileUri "/proj/dir") "")
      = Ok rootPath /\
      result (resolveCustomMappingPaths threeTierHost (SampleHost.fileUri "/proj/dir") "")
      = Ok customMappingPaths /\
      ["/proj/dir"; "/proj"; "/lib"]
      = (filter (existsOnDisk threeTierHost) [localPath]
         ++ filter (fun p => truthy p && existsOnDisk threeTierHost p)
                   (optionToList rootPath)
         ++ filter (existsOnDisk threeTierHost) customMappingPaths)%list)).
Proof.
  split; [reflexivity|].
  apply (resolveDottedPaths_entries threeTierHost "" (SampleHost.fileUri "/proj/dir")
           ["/proj/dir"; "/proj"; "/lib"]).
  reflexivity.
Defined.

(* ================================================================== *)
(** ** The pattern of a mapping *)
(* ================================================================== *)

Lemma parse_ordinary_char c rest cur stack q :
  RegExp.is_special c = false ->
  RegExp.parse (String c rest) cur stack q
  = RegExp.parse rest (RegExp.push_term (RegExp.RChar c) cur) stack RegExp.AnAtom.
Proof.
  unfold RegExp.is_special. cbn [existsb]. rewrite !orb_false_iff.
  intros (H1 & H2 & H3 & H4 & H5 & H6 & H7 & H8 & H9 & H10 & H11 & H12 & _).
  cbn [RegExp.parse].
  rewrite H1, H2, H3, H4, H5, H6, H7, H8, H9, H10, H11, H12. reflexivity.
Qed.

Lemma parse_literal s tail : forall cur stack q,
  isLiteral s = true ->
  exists q',
    RegExp.parse (s ++ tail) cur stack q
    = RegExp.parse tail
        {| RegExp.f_alts := RegExp.f_alts cur;
           RegExp.f_seq := (rev (literalTerms s) ++ RegExp.f_seq cur)%list |}
        stack q'.
Proof.
  induction s as [|c s IH]; intros cur stack q Hlit.
  - exists q. destruct cur; reflexivity.
  - cbn [isLiteral] in Hlit. apply andb_true_iff in Hlit as [Hc Hs].
    apply negb_true_iff in Hc.
    cbn [String.append]. rewrite (parse_ordinary_char c _ cur stack q Hc).
    destruct (IH (RegExp.push_term (RegExp.RChar c) cur) stack RegExp.AnAtom Hs)
      as [q' E].
    exists q'. rewrite E. cbn [literalTerms rev RegExp.push_term RegExp.f_alts RegExp.f_seq].
    rewrite <- app_assoc. reflexivity.
Qed.

Lemma compile_logicalPathStart s :
  isLiteral s = true ->
  RegExp.compile (logicalPathStartSource s)
  = RegExp.Compiled
      (RegExp.RSeq RegExp.RBol
         (RegExp.seq_of (literalTerms s ++ [separatorOrEnd]))).
Proof.
  intros Hlit. unfold logicalPathStartSource, RegExp.compile.
  change ("^" ++ s ++ "(?:/|$)") with (String "^" (s ++ "(?:/|$)")).
  cbn [RegExp.parse Ascii.eqb Bool.eqb].
  destruct (parse_literal s "(?:/|$)"
              (RegExp.push_term RegExp.RBol RegExp.empty_frame)
              [] RegExp.NoAtom Hlit) as [q' E].
  rewrite E. cbn. rewrite rev_app_distr, rev_involutive. reflexivity.
Qed.

Lemma stripPrefix_Some s : forall p rest,
  JsString.stripPrefix s p = Some rest <-> p = s ++ rest.
Proof.
  induction s as [|c s IH]; intros p rest; simpl.
  - split; [intros [= ->] | intros ->]; reflexivity.
  - destruct p as [|d p]; [split; discriminate|].
    destruct (Ascii.eqb_spec c d) as [->|Hne].
    + rewrite IH. split; [intros -> | intros [= ->]]; reflexivity.
    + split; [discriminate | intros [= E _]; congruence].
Qed.

Lemma rmatch_literalTerms s rs k : forall i p,
  RegExp.rmatch false (RegExp.seq_of (literalTerms s ++ rs)) i p k
  = match JsString.stripPrefix s p with
    | Some rest => RegExp.rmatch false (RegExp.seq_of rs) (i + String.length s) rest k
    | None => false
    end.
Proof.
  induction s as [|c s IH]; intros i p.
  - simpl. rewrite Nat.add_0_r. reflexivity.
  - cbn [literalTerms app RegExp.seq_of RegExp.rmatch JsString.stripPrefix].
    destruct p as [|d p]; [reflexivity|].
    unfold RegExp.char_eq. destruct (Ascii.eqb c d); [|reflexivity].
    rewrite IH. cbn [andb String.length]. rewrite <- plus_n_Sm. reflexivity.
Qed.

Lemma search_bol_later r s : forall i,
  0 < i -> RegExp.search false (RegExp.RSeq RegExp.RBol r) i s = false.
Proof.
  induction s as [|c s IH]; intros i Hi; cbn [RegExp.search RegExp.rmatch];
    destruct i; try lia; cbn [Nat.eqb andb orb].
  - reflexivity.
  - apply IH. lia.
Qed.

Lemma test_bol r p :
  RegExp.search false (RegExp.RSeq RegExp.RBol r) 0 p
  = RegExp.rmatch false r 0 p RegExp.accept.
Proof.
  destruct p as [|c p]; cbn [RegExp.search RegExp.rmatch Nat.eqb andb].
  - apply orb_false_r.
  - rewrite search_bol_later by lia. apply orb_false_r.
Qed.

(** The test of a mapping whose stripped prefix is made of ordinary
    characters, computed without the pattern. *)
Lemma logicalPathStartTest_literal s p :
  isLiteral s = true ->
  logicalPathStartTest s p
  = Ok match JsString.stripPrefix s p with
       | Some rest => JsString.startsWith rest "/" || String.eqb rest ""
       | None => false
       end.
Proof.
  intros Hlit. unfold logicalPathStartTest, RegExp_new.
  rewrite (compile_logicalPathStart s Hlit). unfold RegExp.test.
  cbn [RegExp.pattern RegExp.ignoreCase]. rewrite test_bol, rmatch_literalTerms.
  destruct (JsString.stripPrefix s p) as [rest|]; [|reflexivity].
  unfold separatorOrEnd, JsString.startsWith.
  destruct rest as [|d rest]; [reflexivity|].
  cbn [RegExp.seq_of RegExp.rmatch JsString.stripPrefix String.eqb].
  unfold RegExp.char_eq, RegExp.accept.
  destruct (Ascii.eqb "/" d); reflexivity.
Qed.

Lemma append_empty s : s ++ "" = s.
Proof. induction s; simpl; congruence. Qed.

Lemma append_cancel s a b : s ++ a = s ++ b -> a = b.
Proof.
  intros H.
  assert (E : JsString.stripPrefix s (s ++ a) = Some b)
    by (apply stripPrefix_Some; exact H).
  assert (E' : JsString.stripPrefix s (s ++ a) = Some a)
    by (apply stripPrefix_Some; reflexivity).
  congruence.
Qed.

(** C4, as the code has it. For every mapping whose logical path, without
    its first character (the leading separator), is made of ordinary
    characters, and for every normalized path, the test of the mapping
    returns, and it holds exactly when the normalized path is that
    stripped prefix or starts with it followed by a separator. *)
Theorem mapping_matches_prefix (mapping : CFMLMapping) (normalizedPath : string) :
  isLiteral (JsString.slice 1 (logicalPath mapping)) = true ->
  exists matched : bool,
    logicalPathStartTest (JsString.slice 1 (logicalPath mapping)) normalizedPath
    = Ok matched /\
    (matched = true <->
     isPrefixOfSegments (JsString.slice 1 (logicalPath mapping)) normalizedPath).
Proof.
  intros Hlit. set (prefix := JsString.slice 1 (logicalPath mapping)) in *.
  rewrite (logicalPathStartTest_literal prefix normalizedPath Hlit).
  eexists. split; [reflexivity|]. unfold isPrefixOfSegments.
  destruct (JsString.stripPrefix prefix normalizedPath) as [rest|] eqn:E.
  - apply stripPrefix_Some in E. subst normalizedPath.
    unfold JsString.startsWith. destruct rest as [|d rest].
    + split; [left; apply append_empty | reflexivity].
    + cbn [JsString.stripPrefix String.eqb orb].
      destruct (Ascii.eqb_spec "/" d) as [<-|Hne]; rewrite orb_false_r.
      * split; [right; exists rest; reflexivity | reflexivity].
      * split; [discriminate|]. intros [H | [rest' H]]; exfalso.
        -- rewrite <- (append_empty prefix) in H at 2.
           apply append_cancel in H. discriminate.
        -- apply append_cancel in H. injection H as H _. congruence.
  - split; [discriminate|]. intros [H | [rest H]]; exfalso.
    + assert (E' : JsString.stripPrefix prefix normalizedPath = Some "").
      { apply stripPrefix_Some. rewrite H. symmetry. apply append_empty. }
      congruence.
    + apply stripPrefix_Some in H. congruence.
Qed.

Lemma mapping_matches_prefix_witness :
  isLiteral (JsString.slice 1 "/foo") = true /\
  exists matched : bool,
    logicalPathStartTest (JsString.slice 1 "/foo") "foo/bar" = Ok matched /\
    (matched = true <-> isPrefixOfSegments (JsString.slice 1 "/foo") "foo/bar").
Proof.
  split; [reflexivity|].
  apply (mapping_matches_prefix
           {| logicalPath := "/foo"; directoryPath := "/lib";
              isPhysicalDirectoryPath := None |} "foo/bar").
  reflexivity.
Defined.

(** The mapping [/foo] on the paths of the specification. *)
Example mapping_foo :
  logicalPathStartTest (JsString.slice 1 "/foo") "foo" = Ok true /\
  logicalPathStartTest (JsString.slice 1 "/foo") "foo/bar" = Ok true /\
  logicalPathStartTest (JsString.slice 1 "/foo") "foobar/baz" = Ok false /\
  logicalPathStartTest (JsString.slice 1 "/foo") "/foobar/baz" = Ok false.
Proof. repeat split. Qed.

(** C4 as stated fails: the mapping [/foo] does not match the normalized
    path [/foo], which keeps its leading separator; and the mapping [/a.b]
    matches [a/b], which neither is [a.b] nor starts with [a.b/]. *)
Lemma mapping_match_counterexample :
  logicalPathStartTest (JsString.slice 1 "/foo") "/foo" = Ok false /\
  logicalPathStartTest (JsString.slice 1 "/foo") "/foo/bar" = Ok false /\
  logicalPathStartTest (JsString.slice 1 "/a.b") "a/b" = Ok true /\
  ~ isPrefixOfSegments (JsString.slice 1 "/a.b") "a/b".
Proof.
  repeat split. intros [H | [rest H]]; discriminate.
Qed.

(* ================================================================== *)
(** ** Dotted paths: the local candidate *)
(* ================================================================== *)

(** The first path [resolveDottedPaths] probes is the normalized dotted
    path joined onto the base location as it is handed over: no
    containing directory is taken. *)
Lemma local_candidate_joins_base (h : Host) (dotPath : string) (baseUri joined : Uri) :
  Uri_joinPath h baseUri (JsString.replaceAll "." "/" dotPath) = Ok joined ->
  hd_error (events (resolveDottedPaths h dotPath baseUri))
  = Some (EvStat (Uri_file h (fsPath h joined))).
Proof.
  intros Hjoin. unfold resolveDottedPaths, resolveRelativePath.
  rewrite Hjoin. change (lift (Ok joined)) with (ret joined).
  rewrite !bind_ret_l.
  rewrite events_bind, result_fileExists, events_fileExists. reflexivity.
Qed.

Lemma local_candidate_joins_base_witness :
  Uri_joinPath siblingHost (SampleHost.fileUri "/proj/dir")
               (JsString.replaceAll "." "/" "a.b")
  = Ok (SampleHost.fileUri "/proj/dir/a/b") /\
  hd_error (events (resolveDottedPaths siblingHost "a.b" (SampleHost.fileUri "/proj/dir")))
  = Some (EvStat (Uri_file siblingHost
                    (fsPath siblingHost (SampleHost.fileUri "/proj/dir/a/b")))).
Proof.
  split; [reflexivity|].
  apply (local_candidate_joins_base siblingHost "a.b" (SampleHost.fileUri "/proj/dir")).
  reflexivity.
Defined.

(** C5, at the failing input. The document [/proj/dir/page.cfc] asks for
    the dotted path [a.b], and the component [/proj/dir/a/b], in the
    directory that contains the document, is on disk. The local tier
    probes [/proj/dir/page.cfc/a/b], the path joined onto the document
    itself, not [/proj/dir/a/b]: the component is not found, no other
    tier finds it, and the resolution returns no path. Handed the
    containing directory [/proj/dir] instead, the same code finds the
    component at its first probe. *)
Theorem local_candidate_is_joined_onto_the_document :
  SampleHost.joinPosix (containingDirectory "/proj/dir/page.cfc") "a/b"
  = "/proj/dir/a/b" /\
  existsOnDisk siblingHost "/proj/dir/a/b" = true /\
  resolveDottedPaths siblingHost "a.b" (SampleHost.fileUri "/proj/dir/page.cfc")
  = ([EvStat (SampleHost.fileUri "/proj/dir/page.cfc/a/b");
      EvGetWorkspaceFolder (SampleHost.fileUri "/proj/dir/page.cfc");
      EvGetConfiguration (SampleHost.fileUri "/proj/dir/page.cfc")],
     Ok []) /\
  SampleHost.fileUri "/proj/dir/page.cfc/a/b" <> SampleHost.fileUri "/proj/dir/a/b" /\
  resolveDottedPaths siblingHost "a.b"
                     (SampleHost.fileUri (containingDirectory "/proj/dir/page.cfc"))
  = ([EvStat (SampleHost.fileUri "/proj/dir/a/b")], Ok ["/proj/dir/a/b"]).
Proof.
  repeat split. discriminate.
Qed.

(* ================================================================== *)
(** ** The mapping tier *)
(* ================================================================== *)

Lemma result_effectiveBase h baseUri mapping :
  result match isPhysicalDirectoryPath mapping with
         | None | Some true => ret (Some (directoryPath mapping))
         | Some false => resolveRootPath h baseUri (directoryPath mapping)
         end
  = effectiveBase h baseUri mapping.
Proof.
  unfold effectiveBase. destruct (isPhysicalDirectoryPath mapping) as [[|]|]; reflexivity.
Qed.

Lemma result_candidate_step {B} h baseUri appendingPath mapping
      (next : string -> M B) :
  result (directoryPath <-
            match isPhysicalDirectoryPath mapping with
            | None | Some true => ret (Some (directoryPath mapping))
            | Some false => resolveRootPath h baseUri (directoryPath mapping)
            end ;;
          parsed <- lift (Uri_parse h directoryPath) ;;
          joined <-
            lift (Uri_joinPath h parsed
                    (JsString.slice
                       (String.length (JsString.slice 1 (logicalPath mapping)))
                       appendingPath)) ;;
          next (fsPath h joined))
  = match mappingCandidate h baseUri appendingPath mapping with
    | Ok candidate => result (next candidate)
    | Throw e => Throw e
    end.
Proof.
  rewrite result_bind, result_effectiveBase. unfold mappingCandidate, remainder.
  destruct (effectiveBase h baseUri mapping) as [base|e]; [|reflexivity].
  rewrite result_bind. change (result (lift ?o)) with o.
  destruct (Uri_parse h base) as [parsed|e]; [|reflexivity].
  rewrite result_bind. change (result (lift ?o)) with o.
  destruct (Uri_joinPath h parsed _) as [joined|e]; reflexivity.
Qed.

Lemma resolveRootPath_no_probe h baseUri appendingPath :
  Forall (fun e => isProbe e = false) (events (resolveRootPath h baseUri appendingPath)).
Proof.
  unfold resolveRootPath. apply events_bind_Forall.
  - repeat constructor.
  - intros _. destruct (getWorkspaceFolder h baseUri); [|constructor].
    apply events_bind_Forall; [constructor | intros; constructor].
Qed.

Lemma mappingLoop_no_probe h baseUri appendingPath normalizedPath cfmlMappings :
  forall customMappingPaths,
    Forall (fun e => isProbe e = false)
           (events (mappingLoop h baseUri appendingPath normalizedPath cfmlMappings
                                customMappingPaths)).
Proof.
  induction cfmlMappings as [|mapping rest IH]; intros acc; cbn [mappingLoop].
  - constructor.
  - apply events_bind_Forall; [constructor|]. intros [|]; [|apply IH].
    apply events_bind_Forall.
    + destruct (isPhysicalDirectoryPath mapping) as [[|]|];
        [constructor | apply resolveRootPath_no_probe | constructor].
    + intros directoryPath. apply events_bind_Forall; [constructor|].
      intros parsed. apply events_bind_Forall; [constructor|].
      intros joined. apply IH.
Qed.

(** C7, at the failing input. The table holds the one mapping [/c+] to
    [/lib] and the normalized path is [ccc/x]. The code takes the mapping
    for a matching one and returns the candidate [/lib/c/x]: it cuts from
    the path the two characters that the text [c+] has, not the prefix
    [ccc] that its pattern matched. The rule of the specification has no
    match here, so no candidate; and the candidate for what follows the
    matched prefix [ccc] is [/lib/x], as the code itself returns for the
    mapping [/ccc]. *)
Theorem candidate_is_cut_by_the_length_of_the_pattern :
  resolveCustomMappingPaths quantifierHost (SampleHost.fileUri "/proj/dir") "ccc/x"
  = ([EvGetConfiguration (SampleHost.fileUri "/proj/dir")], Ok ["/lib/c/x"]) /\
  matchesPrefix "c+" "ccc/x" = false /\
  ~ isPrefixOfSegments "c+" "ccc/x" /\
  "ccc/x" = "ccc" ++ "/x" /\
  resolveCustomMappingPaths tripleHost (SampleHost.fileUri "/proj/dir") "ccc/x"
  = ([EvGetConfiguration (SampleHost.fileUri "/proj/dir")], Ok ["/lib/x"]).
Proof.
  repeat split. intros [H | [rest H]]; discriminate.
Qed.

(** The mapping tier returns on every table whose logical paths are made
    of ordinary characters, on a host whose [Uri.parse] and [Uri.joinPath]
    do not raise. *)
Lemma resolveCustomMappingPaths_returns h baseUri appendingPath :
  (forall value, exists parsed, Uri_parse h value = Ok parsed) ->
  (forall base appending, exists joined, Uri_joinPath h base appending = Ok joined) ->
  Forall (fun mapping => isLiteral (JsString.slice 1 (logicalPath mapping)) = true)
         (getMappings h baseUri) ->
  exists l, result (resolveCustomMappingPaths h baseUri appendingPath) = Ok l.
Proof.
  intros Hparse Hjoin Hliteral.
  unfold resolveCustomMappingPaths. rewrite result_bind. cbn [result emit snd].
  generalize (@nil string) as acc.
  induction Hliteral as [|mapping rest Hlit _ IH]; intros acc.
  - eexists. reflexivity.
  - cbn [mappingLoop]. rewrite result_bind. change (result (lift ?o)) with o.
    rewrite (logicalPathStartTest_literal _ _ Hlit).
    match goal with |- context [if ?b then _ else _] => destruct b end; [|apply IH].
    rewrite (result_candidate_step h baseUri appendingPath mapping
               (fun candidate =>
                  mappingLoop h baseUri appendingPath
                              (JsString.replaceAll "\" "/" appendingPath) rest
                              (acc ++ [candidate])%list)).
    assert (Hcandidate : exists candidate,
               mappingCandidate h baseUri appendingPath mapping = Ok candidate).
    { unfold mappingCandidate.
      assert (Hbase : exists base, effectiveBase h baseUri mapping = Ok base).
      { unfold effectiveBase, resolveRootPath.
        destruct (isPhysicalDirectoryPath mapping) as [[|]|]; eauto.
        rewrite result_bind. cbn [result emit snd].
        destruct (getWorkspaceFolder h baseUri) as [root|];
          [|eexists; reflexivity].
        destruct (Hjoin root (directoryPath mapping)) as [joined E].
        rewrite result_bind. change (result (lift ?o)) with o.
        rewrite E. eexists. reflexivity. }
      destruct Hbase as [base ->].
      destruct (Hparse base) as [parsed ->].
      destruct (Hjoin parsed (remainder mapping appendingPath)) as [joined ->].
      eauto. }
    destruct Hcandidate as [candidate ->]. apply IH.
Qed.

Lemma mappedLoop_returns h normalizedPath customMappingPaths : forall paths,
  exists l, result (mappedLoop h normalizedPath customMappingPaths paths) = Ok l.
Proof.
  induction customMappingPaths as [|mappedPath rest IH]; intros paths; cbn [mappedLoop].
  - eexists. reflexivity.
  - rewrite result_bind, result_fileExists.
    destruct (existsOnDisk h mappedPath); [|apply IH].
    destruct (0 <? String.length normalizedPath)%nat; [eexists; reflexivity | apply IH].
Qed.

(** Dotted-path resolution returns, whatever is on disk, when the logical
    paths of the table are made of ordinary characters and [Uri.parse] and
    [Uri.joinPath] do not raise. *)
Lemma resolveDottedPaths_returns h dotPath baseUri :
  (forall value, exists parsed, Uri_parse h value = Ok parsed) ->
  (forall base appending, exists joined, Uri_joinPath h base appending = Ok joined) ->
  Forall (fun mapping => isLiteral (JsString.slice 1 (logicalPath mapping)) = true)
         (getMappings h baseUri) ->
  exists l, result (resolveDottedPaths h dotPath baseUri) = Ok l.
Proof.
  intros Hparse Hjoin Hliteral. unfold resolveDottedPaths.
  set (normalizedPath := JsString.replaceAll "." "/" dotPath).
  unfold resolveRelativePath.
  destruct (Hjoin baseUri normalizedPath) as [joined ->].
  change (lift (Ok joined)) with (ret joined). rewrite !bind_ret_l.
  rewrite result_bind, result_fileExists.
  match goal with |- context [if ?b then ret _ else _] => destruct b end;
    [eexists; reflexivity|].
  rewrite result_bind.
  assert (Hroot : exists rootPath,
             result (resolveRootPath h baseUri normalizedPath) = Ok rootPath).
  { unfold resolveRootPath. rewrite result_bind. cbn [result emit snd].
    destruct (getWorkspaceFolder h baseUri) as [root|]; [|eexists; reflexivity].
    destruct (Hjoin root normalizedPath) as [joinedRoot E].
    rewrite result_bind. change (result (lift ?o)) with o.
    rewrite E. eexists. reflexivity. }
  destruct Hroot as [rootPath ->]. rewrite result_bind.
  assert (Hfound : exists rootFound,
             result match rootPath with
                    | Some p => if truthy p then fileExists h p else ret false
                    | None => ret false
                    end = Ok rootFound).
  { destruct rootPath as [p|]; [|eexists; reflexivity].
    destruct (truthy p); [|eexists; reflexivity].
    rewrite result_fileExists. eexists. reflexivity. }
  destruct Hfound as [rootFound ->].
  match goal with |- context [if ?b then ret _ else _] => destruct b end;
    [eexists; reflexivity|].
  rewrite result_bind.
  destruct (resolveCustomMappingPaths_returns h baseUri normalizedPath
              Hparse Hjoin Hliteral) as [customMappingPaths ->].
  apply mappedLoop_returns.
Qed.

(** For a prefix of ordinary characters that matches, the path is the
    prefix followed by the remainder. *)
Lemma remainder_after_prefix mapping normalizedPath :
  isLiteral (JsString.slice 1 (logicalPath mapping)) = true ->
  mappingTest normalizedPath mapping = Ok true ->
  normalizedPath = JsString.slice 1 (logicalPath mapping) ++ remainder mapping normalizedPath.
Proof.
  unfold mappingTest, remainder. intros Hlit.
  rewrite (logicalPathStartTest_literal _ normalizedPath Hlit).
  destruct (JsString.stripPrefix _ normalizedPath) as [rest|] eqn:E; [|discriminate].
  intros _. apply stripPrefix_Some in E. rewrite E at 1 2. f_equal.
  generalize (JsString.slice 1 (logicalPath mapping)) as s.
  induction s; simpl; auto.
Qed.

(** C3, at the case it names. A matching mapping whose directory is
    relative to the root, for a base location without a root, is not
    skipped: [undefined] goes to [Uri.parse], and the run either raises
    or returns a candidate built from it. *)
Theorem unresolved_root_candidate_is_not_skipped (h : Host) (baseUri : Uri)
        (appendingPath : string) (mapping : CFMLMapping) :
  getMappings h baseUri = [mapping] ->
  isPhysicalDirectoryPath mapping = Some false ->
  getWorkspaceFolder h baseUri = None ->
  mappingTest (JsString.replaceAll "\" "/" appendingPath) mapping = Ok true ->
  result (resolveCustomMappingPaths h baseUri appendingPath)
  = match Uri_parse h None with
    | Ok parsed =>
        match Uri_joinPath h parsed (remainder mapping appendingPath) with
        | Ok joined => Ok [fsPath h joined]
        | Throw e => Throw e
        end
    | Throw e => Throw e
    end.
Proof.
  intros Hmappings Hphysical Hroot Htest.
  unfold resolveCustomMappingPaths. rewrite result_bind. cbn [result emit snd].
  rewrite Hmappings. cbn [mappingLoop]. rewrite result_bind.
  change (result (lift ?o)) with o. unfold mappingTest in Htest. rewrite Htest.
  rewrite (result_candidate_step h baseUri appendingPath mapping
             (fun candidate => ret ([] ++ [candidate])%list)).
  unfold mappingCandidate, effectiveBase, resolveRootPath.
  rewrite Hphysical, Hroot. cbn [result bind emit ret snd app].
  destruct (Uri_parse h None) as [parsed|e]; [|reflexivity].
  destruct (Uri_joinPath h parsed _) as [joined|e]; reflexivity.
Qed.

Lemma unresolved_root_candidate_is_not_skipped_witness :
  getMappings rootlessHost (SampleHost.fileUri "/elsewhere/dir")
  = [{| logicalPath := "/foo"; directoryPath := "lib";
        isPhysicalDirectoryPath := Some false |}] /\
  getWorkspaceFolder rootlessHost (SampleHost.fileUri "/elsewhere/dir") = None /\
  result (resolveCustomMappingPaths rootlessHost (SampleHost.fileUri "/elsewhere/dir")
                                    "foo/bar")
  = Ok ["/undefined/bar"].
Proof.
  split; [reflexivity|]. split; [reflexivity|].
  apply (unresolved_root_candidate_is_not_skipped
           rootlessHost (SampleHost.fileUri "/elsewhere/dir") "foo/bar"
           {| logicalPath := "/foo"; directoryPath := "lib";
              isPhysicalDirectoryPath := Some false |});
    reflexivity.
Defined.

(** On the sample host the candidate built from [undefined] is probed and,
    being on disk, returned. *)
Example unresolved_root_candidate_is_probed :
  resolveDottedPaths rootlessHost "foo.bar" (SampleHost.fileUri "/elsewhere/dir")
  = ([EvStat (SampleHost.fileUri "/elsewhere/dir/foo/bar");
      EvGetWorkspaceFolder (SampleHost.fileUri "/elsewhere/dir");
      EvGetConfiguration (SampleHost.fileUri "/elsewhere/dir");
      EvGetWorkspaceFolder (SampleHost.fileUri "/elsewhere/dir");
      EvStat (SampleHost.fileUri "/undefined/bar")],
     Ok ["/undefined/bar"]).
Proof. reflexivity. Qed.

(** A logical path that is not a pattern makes the resolution raise. *)
Example logical_path_not_a_pattern_raises :
  resolveDottedPaths plusPlusHost "x" (SampleHost.fileUri "/elsewhere/dir")
  = ([EvStat (SampleHost.fileUri "/elsewhere/dir/x");
      EvGetWorkspaceFolder (SampleHost.fileUri "/elsewhere/dir");
      EvGetConfiguration (SampleHost.fileUri "/elsewhere/dir")],
     Throw SyntaxError).
Proof. reflexivity. Qed.

(* ================================================================== *)
(** ** Links with a scheme *)
(* ================================================================== *)

(** C8. For every link text that [isUri] accepts and [Uri.parse] reads
    with a scheme, [resolveLink] returns the parsed reference itself and
    asks nothing of the editor, whatever the file system holds. *)
Theorem scheme_qualified_link_is_returned (h : Host) (document : TextDocument)
        (link : string) (parsed : Uri) :
  JsString.startsWith link "#" = false ->
  isUri h link = true ->
  Uri_parse h (Some link) = Ok parsed ->
  scheme parsed <> "" ->
  forall disk : Uri -> outcome FileStat,
    resolveLink (withDisk h disk) document link = ([], Ok (Some parsed)).
Proof.
  intros Hfragment HisUri Hparse Hscheme disk.
  unfold resolveLink. rewrite Hfragment.
  cbn [withDisk isUri Uri_parse]. rewrite HisUri, Hparse.
  assert (Htruthy : truthy (scheme parsed) = true).
  { unfold truthy. destruct (String.eqb_spec (scheme parsed) ""); [contradiction|reflexivity]. }
  unfold lift. cbn [bind try_catch ret app]. rewrite Htruthy. reflexivity.
Qed.

Lemma scheme_qualified_link_is_returned_witness :
  JsString.startsWith "https://example.com/x" "#" = false /\
  isUri threeTierHost "https://example.com/x" = true /\
  (exists parsed,
      Uri_parse threeTierHost (Some "https://example.com/x") = Ok parsed /\
      scheme parsed = "https" /\
      resolveLink (withDisk threeTierHost unreachableDisk)
                  {| uri := SampleHost.fileUri "/proj/dir/page.cfm";
                     fileName := "/proj/dir"; getText := "" |}
                  "https://example.com/x"
      = ([], Ok (Some parsed))).
Proof.
  split; [reflexivity|]. split; [reflexivity|].
  eexists. split; [reflexivity|]. split; [reflexivity|].
  apply (scheme_qualified_link_is_returned threeTierHost); try reflexivity.
  discriminate.
Defined.

(* ================================================================== *)
(** ** Document links: what the provider returns, and when *)
(* ================================================================== *)

Lemma linkLoop_pushes_nothing_yet h document linkIndex matches results :
  fst (linkLoop h document linkIndex matches results) = results.
Proof.
  destruct matches as [|m rest]; cbn [linkLoop]; [reflexivity|].
  destruct (group m linkIndex), (group m 0); reflexivity.
Qed.

Lemma forEach_pushes_nothing_yet {A} (l : list A)
      (callback : A -> Store -> Store * Async) :
  (forall x st, fst (callback x st) = st) ->
  forall st, fst (forEach l callback st) = st.
Proof.
  intros Hcb. induction l as [|x l IH]; intros st; cbn [forEach]; [reflexivity|].
  pose proof (Hcb x st) as Hx. destruct (callback x st) as [st1 p].
  pose proof (IH st1) as Hl. destruct (forEach l callback st1) as [st2 ps].
  simpl in *. congruence.
Qed.

Lemma provideDocumentLinks_on_return h document :
  fst (provideDocumentLinks h document) = [].
Proof.
  unfold provideDocumentLinks. apply forEach_pushes_nothing_yet.
  intros element st. apply linkLoop_pushes_nothing_yet.
Qed.

(** C2, at the point where it fails. For every document, the array that
    [provideDocumentLinks] returns is empty when its promise settles:
    every push comes after an [await] of a callback that [forEach] does
    not wait for. *)
Theorem provideDocumentLinks_returns_before_any_push (h : Host)
        (document : TextDocument) :
  fst (provideDocumentLinks h document) = [].
Proof. apply provideDocumentLinks_on_return. Qed.

(** The document [<img src='/a/b.png'>], whose link resolves: nothing in
    the array on return; the link is there once the suspended callback has
    run, and its span is that of [/a/b.png] in the text. *)
Example img_link_arrives_late :
  fst (provideDocumentLinks imgHost imgDocument) = [] /\
  fst (runJobs [0] (snd (provideDocumentLinks imgHost imgDocument))
               (fst (provideDocumentLinks imgHost imgDocument)))
  = [{| range := ({| line := 0; character := 10 |}, {| line := 0; character := 18 |});
        target := SampleHost.fileUri "/proj/a/b.png" |}] /\
  JsString.span 10 (18 - 10) (getText imgDocument) = "/a/b.png".
Proof. repeat split. Qed.

Lemma linkLoop_suspended h document linkIndex matches results :
  snd (linkLoop h document linkIndex matches results)
  = suspendedAt h document linkIndex matches.
Proof.
  unfold suspendedAt. destruct matches as [|m rest]; cbn [linkLoop]; [reflexivity|].
  destruct (group m linkIndex), (group m 0); reflexivity.
Qed.

Lemma linkLoop_run h document linkIndex matches results :
  linkLoop h document linkIndex matches results
  = (results, suspendedAt h document linkIndex matches).
Proof.
  rewrite (surjective_pairing (linkLoop h document linkIndex matches results)).
  rewrite linkLoop_pushes_nothing_yet, linkLoop_suspended. reflexivity.
Qed.

(** A suspended callback is over, with nothing left to push, or its next
    job pushes the links of one match and suspends it again. *)
Lemma suspendedAt_cases h document linkIndex matches :
  (suspendedAt h document linkIndex matches = Settled /\
   linkEntries h document linkIndex matches = []) \/
  (exists resume pushed rest,
      suspendedAt h document linkIndex matches = Await resume /\
      linkEntries h document linkIndex matches
      = (pushed ++ linkEntries h document linkIndex rest)%list /\
      forall results,
        resume results
        = ((results ++ pushed)%list, suspendedAt h document linkIndex rest)).
Proof.
  unfold suspendedAt. destruct matches as [|m rest]; cbn [linkLoop linkEntries].
  - left. split; reflexivity.
  - destruct (group m linkIndex) as [link|]; [|left; split; reflexivity].
    destruct (group m 0) as [whole|]; [|left; split; reflexivity].
    right. cbn [snd]. eexists. eexists. exists rest.
    split; [reflexivity|]. split; [reflexivity|].
    intros results. rewrite linkLoop_run.
    destruct (result (resolveLink h document link)) as [[target|]|e];
      rewrite ?app_nil_r; reflexivity.
Qed.

Lemma resumeNth_pending h document n : forall tasks pendings results,
  Forall2 (Pending h document) tasks pendings ->
  exists pendings',
    Forall2 (Pending h document) (snd (resumeNth n tasks results)) pendings' /\
    Permutation (fst (resumeNth n tasks results) ++ concat pendings')
                (results ++ concat pendings).
Proof.
  induction n as [|n IH]; intros tasks pendings results Hall.
  - destruct Hall as [|task pending tasks pendings Htask Hall].
    + exists []. split; [constructor | reflexivity].
    + destruct Htask as (linkIndex & matches & -> & ->).
      destruct (suspendedAt_cases h document linkIndex matches)
        as [[E1 E2] | (resume & pushed & rest & E1 & E2 & E3)].
      * rewrite E1. cbn [resumeNth fst snd].
        exists (linkEntries h document linkIndex matches :: pendings).
        split; [|reflexivity].
        constructor; [|exact Hall]. exists linkIndex, matches. auto.
      * rewrite E1. cbn [resumeNth]. rewrite E3. cbn [fst snd].
        exists (linkEntries h document linkIndex rest :: pendings).
        split.
        -- constructor; [|exact Hall]. exists linkIndex, rest. auto.
        -- rewrite E2. cbn [concat]. rewrite <- !app_assoc. reflexivity.
  - destruct Hall as [|task pending tasks pendings Htask Hall].
    + exists []. split; [constructor | reflexivity].
    + destruct (IH tasks pendings results Hall) as (pendings' & Hall' & Hperm).
      assert (E : resumeNth (S n) (task :: tasks) results
                  = (fst (resumeNth n tasks results),
                     task :: snd (resumeNth n tasks results))).
      { cbn [resumeNth]. destruct (resumeNth n tasks results). destruct task; reflexivity. }
      rewrite E. cbn [fst snd]. exists (pending :: pendings').
      split; [constructor; assumption|].
      cbn [concat]. rewrite Permutation_app_swap_app, Hperm.
      apply Permutation_app_swap_app.
Qed.

Lemma runJobs_pending h document schedule : forall tasks pendings results,
  Forall2 (Pending h document) tasks pendings ->
  exists pendings',
    Forall2 (Pending h document) (snd (runJobs schedule tasks results)) pendings' /\
    Permutation (fst (runJobs schedule tasks results) ++ concat pendings')
                (results ++ concat pendings).
Proof.
  induction schedule as [|n schedule IH]; intros tasks pendings results Hall.
  - exists pendings. split; [exact Hall | reflexivity].
  - cbn [runJobs].
    destruct (resumeNth_pending h document n tasks pendings results Hall)
      as (pendings1 & Hall1 & Hperm1).
    destruct (resumeNth n tasks results) as [results1 tasks1]. cbn [fst snd] in *.
    destruct (IH tasks1 pendings1 results1 Hall1) as (pendings2 & Hall2 & Hperm2).
    exists pendings2. split; [exact Hall2|]. rewrite Hperm2. exact Hperm1.
Qed.

Lemma settled_nothing_pending h document tasks pendings :
  Forall2 (Pending h document) tasks pendings ->
  allSettled tasks -> concat pendings = [].
Proof.
  induction 1 as [|task pending tasks pendings Htask Hall IH]; intros Hsettled.
  - reflexivity.
  - inversion Hsettled as [|? ? Ht Hts]; subst.
    destruct Htask as (linkIndex & matches & E & ->).
    destruct (suspendedAt_cases h document linkIndex matches)
      as [[_ E2] | (resume & pushed & rest & E1 & _)].
    + cbn [concat]. rewrite E2, (IH Hts). reflexivity.
    + rewrite <- E in E1. discriminate.
Qed.

Lemma forEach_suspended {A} (l : list A) (callback : A -> Store -> Store * Async)
      (task : A -> Async) :
  (forall x st, snd (callback x st) = task x) ->
  forall st, snd (forEach l callback st) = map task l.
Proof.
  intros Hcb. induction l as [|x l IH]; intros st; cbn [forEach map]; [reflexivity|].
  pose proof (Hcb x st) as Hx. destruct (callback x st) as [st1 p].
  pose proof (IH st1) as Hl. destruct (forEach l callback st1) as [st2 ps].
  simpl in *. congruence.
Qed.

Lemma provideDocumentLinks_pending h document :
  Forall2 (Pending h document) (snd (provideDocumentLinks h document))
          (documentEntries h document).
Proof.
  unfold provideDocumentLinks, documentEntries.
  rewrite (forEach_suspended linkPatterns _
             (fun element =>
                suspendedAt h document (linkIndex element)
                            (RegExp_execAll h element (getText document))))
    by (intros; apply linkLoop_suspended).
  induction linkPatterns as [|element l IH]; cbn [map]; constructor; [|exact IH].
  eexists. eexists. split; reflexivity.
Qed.

(** For a call that starts with [lastIndex] 0 and that no other call of
    the provider overlaps: once the suspended callbacks have all run to
    their end, in whatever order their jobs came, the array holds the
    links of the matches that resolve and nothing else. *)
Lemma links_arrive_after_return h document schedule :
  allSettled (snd (runJobs schedule (snd (provideDocumentLinks h document))
                           (fst (provideDocumentLinks h document)))) ->
  Permutation (fst (runJobs schedule (snd (provideDocumentLinks h document))
                            (fst (provideDocumentLinks h document))))
              (concat (documentEntries h document)).
Proof.
  intros Hsettled.
  destruct (runJobs_pending h document schedule _ _
              (fst (provideDocumentLinks h document))
              (provideDocumentLinks_pending h document))
    as (pendings & Hall & Hperm).
  rewrite (settled_nothing_pending h document _ _ Hall Hsettled), app_nil_r in Hperm.
  rewrite provideDocumentLinks_on_return in Hperm at 2.
  exact Hperm.
Qed.

Lemma runJobs_app schedule1 schedule2 : forall tasks results,
  runJobs (schedule1 ++ schedule2) tasks results
  = runJobs schedule2 (snd (runJobs schedule1 tasks results))
            (fst (runJobs schedule1 tasks results)).
Proof.
  induction schedule1 as [|n schedule1 IH]; intros tasks results; cbn [app runJobs].
  - reflexivity.
  - destruct (resumeNth n tasks results) as [results1 tasks1]. apply IH.
Qed.

Lemma runJobs_later_tasks schedule task : forall tasks results,
  runJobs (map S schedule) (task :: tasks) results
  = (fst (runJobs schedule tasks results),
     task :: snd (runJobs schedule tasks results)).
Proof.
  induction schedule as [|n schedule IH]; intros tasks results; cbn [map runJobs].
  - reflexivity.
  - assert (E : resumeNth (S n) (task :: tasks) results
                = (fst (resumeNth n tasks results),
                   task :: snd (resumeNth n tasks results))).
    { cbn [resumeNth]. destruct (resumeNth n tasks results). destruct task; reflexivity. }
    rewrite E. destruct (resumeNth n tasks results) as [results1 tasks1].
    cbn [fst snd]. apply IH.
Qed.

(** A callback left alone runs to its end and pushes its links in the
    order of its matches. *)
Lemma first_task_runs_to_its_end h document linkIndex matches tasks :
  forall results,
  exists jobs,
    runJobs (repeat 0 jobs) (suspendedAt h document linkIndex matches :: tasks) results
    = ((results ++ linkEntries h document linkIndex matches)%list, Settled :: tasks).
Proof.
  induction matches as [|m rest IH]; intros results.
  - exists 0. cbn. rewrite app_nil_r. reflexivity.
  - unfold suspendedAt. cbn [linkLoop linkEntries].
    destruct (group m linkIndex) as [link|];
      [|exists 0; cbn; rewrite app_nil_r; reflexivity].
    destruct (group m 0) as [whole|];
      [|exists 0; cbn; rewrite app_nil_r; reflexivity].
    cbn [snd].
    destruct (result (resolveLink h document link)) as [[target|]|e].
    + match goal with
      | |- context [(?pushed ++ linkEntries _ _ _ _)%list] =>
          destruct (IH (results ++ pushed)%list) as [jobs Hjobs]
      end.
      exists (S jobs). cbn [repeat runJobs resumeNth]. rewrite linkLoop_run.
      rewrite Hjobs, <- app_assoc. reflexivity.
    + destruct (IH results) as [jobs Hjobs].
      exists (S jobs). cbn [repeat runJobs resumeNth]. rewrite linkLoop_run.
      rewrite Hjobs. reflexivity.
    + destruct (IH results) as [jobs Hjobs].
      exists (S jobs). cbn [repeat runJobs resumeNth]. rewrite linkLoop_run.
      rewrite Hjobs. reflexivity.
Qed.

Lemma suspended_tasks_run_to_their_end h document
      (calls : list (nat * list RegExpExecArray)) :
  forall results,
  exists schedule,
    runJobs schedule
            (map (fun call => suspendedAt h document (fst call) (snd call)) calls)
            results
    = ((results
        ++ concat (map (fun call => linkEntries h document (fst call) (snd call))
                       calls))%list,
       map (fun _ => Settled) calls).
Proof.
  induction calls as [|[linkIndex matches] calls IH]; intros results.
  - exists []. cbn. rewrite app_nil_r. reflexivity.
  - cbn [map fst snd concat].
    destruct (first_task_runs_to_its_end h document linkIndex matches
                (map (fun call => suspendedAt h document (fst call) (snd call)) calls)
                results) as [jobs Hjobs].
    destruct (IH (results ++ linkEntries h document linkIndex matches)%list)
      as [schedule Hschedule].
    exists (repeat 0 jobs ++ map S schedule)%list.
    rewrite runJobs_app, Hjobs. cbn [fst snd].
    rewrite runJobs_later_tasks, Hschedule. cbn [fst snd].
    rewrite <- app_assoc. reflexivity.
Qed.

(** The callbacks can run to their end: some schedule settles every one
    of them, and leaves in the array the links of the first pattern, then
    those of the second. Which schedule the event loop takes depends on
    when the awaited promises settle, and it need not be this one. *)
Lemma links_can_all_arrive h document :
  exists schedule,
    runJobs schedule (snd (provideDocumentLinks h document))
            (fst (provideDocumentLinks h document))
    = (concat (documentEntries h document), map (fun _ => Settled) linkPatterns).
Proof.
  rewrite provideDocumentLinks_on_return.
  unfold provideDocumentLinks, documentEntries.
  rewrite (forEach_suspended linkPatterns _
             (fun element =>
                suspendedAt h document (linkIndex element)
                            (RegExp_execAll h element (getText document))))
    by (intros; apply linkLoop_suspended).
  destruct (suspended_tasks_run_to_their_end h document
              (map (fun element =>
                      (linkIndex element, RegExp_execAll h element (getText document)))
                   linkPatterns) [])
    as [schedule Hschedule].
  exists schedule. rewrite !map_map in Hschedule. cbn [fst snd app] in Hschedule.
  exact Hschedule.
Qed.

(* ================================================================== *)
(** ** Document links: the span of a link *)
(* ================================================================== *)

Lemma substring_zero_length n s : String.substring n 0 s = "".
Proof.
  revert s. induction n as [|n IH]; intros [|c s]; simpl; auto.
Qed.

Lemma substring_of_empty n k : String.substring n k "" = "".
Proof. destruct n, k; reflexivity. Qed.

Lemma length_substring_le k : forall s,
  String.length (String.substring 0 k s) <= String.length s.
Proof.
  induction k as [|k IH]; intros [|c s]; simpl; try lia.
  specialize (IH s). lia.
Qed.

Lemma substring_in_range n : forall k s,
  String.length (String.substring n k s) = k -> k = 0 \/ n + k <= String.length s.
Proof.
  induction n as [|n IH]; intros k s H.
  - right. pose proof (length_substring_le k s). simpl. lia.
  - destruct s as [|c s].
    + rewrite substring_of_empty in H. simpl in H. left. lia.
    + simpl in H. destruct (IH k s H); [left | right; simpl]; lia.
Qed.

Lemma substring_prefix_substring s : forall n k L,
  n + k <= L ->
  String.substring n k (String.substring 0 L s) = String.substring n k s.
Proof.
  induction s as [|c s IH]; intros n k L Hle.
  - rewrite !substring_of_empty. reflexivity.
  - destruct L as [|L].
    + assert (n = 0) by lia. assert (k = 0) by lia. subst. reflexivity.
    + cbn [String.substring]. destruct n as [|n].
      * destruct k as [|k]; [reflexivity|]. cbn [String.substring].
        rewrite IH by lia. reflexivity.
      * cbn [String.substring]. apply IH. lia.
Qed.

Lemma substring_substring a : forall s n k L,
  n + k <= L ->
  String.substring n k (String.substring a L s) = String.substring (a + n) k s.
Proof.
  induction a as [|a IH]; intros s n k L Hle.
  - apply substring_prefix_substring. exact Hle.
  - destruct s as [|c s].
    + rewrite !substring_of_empty. reflexivity.
    + cbn [String.substring Nat.add]. apply IH. exact Hle.
Qed.

(** The span of a link. When the whole match is the text of the document
    at the index of the match and the link text occurs in it, the offset
    of the link is the index of the match plus the index of the first
    occurrence of the link text in the match, and the document text at
    that offset, over the length of the link text, is the link text. *)
Lemma link_span_slices_to_link (text whole link : string) (start n : nat) :
  String.substring start (String.length whole) text = whole ->
  String.index 0 link whole = Some n ->
  JsString.indexOf whole link = Z.of_nat n /\
  JsString.span (start + n) (String.length link) text = link.
Proof.
  intros Hwhole Hindex. split.
  - unfold JsString.indexOf. rewrite Hindex. reflexivity.
  - unfold JsString.span. apply String.index_correct1 in Hindex.
    assert (Hlen : String.length (String.substring n (String.length link) whole)
                   = String.length link) by (rewrite Hindex; reflexivity).
    destruct (substring_in_range n _ whole Hlen) as [Hz | Hle].
    + rewrite Hz, substring_zero_length. destruct link; [reflexivity | discriminate].
    + rewrite <- (substring_substring start text n _ (String.length whole) Hle).
      rewrite Hwhole. exact Hindex.
Qed.

(* ================================================================== *)
(** ** The three tiers on a sample workspace *)
(* ================================================================== *)

(** Nothing on disk: the empty list, without an exception. *)
Example nothing_resolves :
  result (resolveDottedPaths siblingHost "x.y" (SampleHost.fileUri "/proj/dir")) = Ok [].
Proof. reflexivity. Qed.

(** The candidates of the sample mapping table for [a/b]: the mapping [/a]
    matches, the mapping [/] does not. *)
Example sample_mapping_candidates :
  resolveCustomMappingPaths threeTierHost (SampleHost.fileUri "/proj/dir") "a/b"
  = ([EvGetConfiguration (SampleHost.fileUri "/proj/dir")], Ok ["/lib/b"]).
Proof. reflexivity. Qed.

(* ================================================================== *)
(** ** Directory listings *)
(* ================================================================== *)

(** X21. [getDirectories] and [getComponents] are the two filters over the
    listing of the directory; a failure of the listing is theirs. *)
Lemma getDirectories_getComponents h srcPath parsed :
  Uri_parse h (Some srcPath) = Ok parsed ->
  result (getDirectories h srcPath)
  = match fs_readDirectory h parsed with
    | Ok files => Ok (filterDirectories files)
    | Throw e => Throw e
    end /\
  result (getComponents h srcPath)
  = match fs_readDirectory h parsed with
    | Ok files => Ok (filterComponents files)
    | Throw e => Throw e
    end.
Proof.
  intros Hparse. unfold getDirectories, getComponents, readDirectory.
  rewrite Hparse. change (lift (Ok parsed)) with (ret parsed).
  rewrite !bind_ret_l, !result_bind.
  cbn [result emit lift snd].
  destruct (fs_readDirectory h parsed); split; reflexivity.
Qed.

(* ================================================================== *)
(** ** Links that are not files *)
(* ================================================================== *)

(** A link that starts with [#] names a place in the document and never
    resolves. *)
Lemma fragment_link_never_resolves h document anchor :
  resolveLink h document (String "#" anchor) = ([], Ok None).
Proof. reflexivity. Qed.

(** A root-relative link to a directory of the workspace does not
    resolve. *)
Example directory_link_does_not_resolve :
  result (resolveLink threeTierHost
            {| uri := SampleHost.fileUri "/proj/dir/page.cfm";
               fileName := "/proj/dir/page.cfm"; getText := "" |}
            "/dir")
  = Ok None.
Proof. reflexivity. Qed.

(* ================================================================== *)
(** ** Dotted paths: the order of the tiers *)
(* ================================================================== *)

(** What a returned list is made of: the local candidate alone, or the
    local and root candidates that exist, alone or handed to the loop over
    the mapping candidates. *)
Lemma resolveDottedPaths_shape h dotPath baseUri l :
  result (resolveDottedPaths h dotPath baseUri) = Ok l ->
  exists localPath,
    result (resolveRelativePath h baseUri (JsString.replaceAll "." "/" dotPath))
    = Ok localPath /\
    if existsOnDisk h localPath
       && (0 <? String.length (JsString.replaceAll "." "/" dotPath))%nat
    then l = [localPath]
    else
      exists rootPath,
        result (resolveRootPath h baseUri (JsString.replaceAll "." "/" dotPath))
        = Ok rootPath /\
        if existsb (fun p => truthy p && existsOnDisk h p) (optionToList rootPath)
           && (0 <? String.length (JsString.replaceAll "." "/" dotPath))%nat
        then l = (filter (existsOnDisk h) [localPath] ++ optionToList rootPath)%list
        else
          exists customMappingPaths,
            result (resolveCustomMappingPaths h baseUri
                      (JsString.replaceAll "." "/" dotPath))
            = Ok customMappingPaths /\
            result (mappedLoop h (JsString.replaceAll "." "/" dotPath)
                      customMappingPaths
                      (filter (existsOnDisk h) [localPath]
                       ++ filter (fun p => truthy p && existsOnDisk h p)
                                 (optionToList rootPath))%list)
            = Ok l.
Proof.
  unfold resolveDottedPaths.
  set (normalizedPath := JsString.replaceAll "." "/" dotPath).
  rewrite result_bind.
  destruct (result (resolveRelativePath h baseUri normalizedPath))
    as [localPath|e]; [|discriminate].
  rewrite result_bind, result_fileExists. intros H. exists localPath.
  split; [reflexivity|]. cbn [filter].
  destruct (existsOnDisk h localPath && (0 <? String.length normalizedPath)%nat)
    eqn:Elocal.
  { injection H as <-. apply andb_true_iff in Elocal as [-> _]. reflexivity. }
  rewrite result_bind in H.
  destruct (result (resolveRootPath h baseUri normalizedPath))
    as [rootPath|e]; [|discriminate].
  exists rootPath. split; [reflexivity|].
  rewrite result_bind in H.
  destruct rootPath as [p|]; cbn [optionToList existsb filter orb] in *.
  - rewrite orb_false_r. destruct (truthy p); cbn [andb] in *.
    + rewrite result_fileExists in H.
      destruct (existsOnDisk h p); cbn [andb] in *.
      * destruct (0 <? String.length normalizedPath)%nat.
        -- injection H as <-. reflexivity.
        -- rewrite result_bind in H.
           destruct (result (resolveCustomMappingPaths h baseUri normalizedPath))
             as [cands|e]; [|discriminate].
           exists cands. split; [reflexivity | exact H].
      * rewrite result_bind in H.
        destruct (result (resolveCustomMappingPaths h baseUri normalizedPath))
          as [cands|e]; [|discriminate].
        exists cands. split; [reflexivity|]. rewrite app_nil_r. exact H.
    + cbn [result ret snd andb] in H. rewrite result_bind in H.
      destruct (result (resolveCustomMappingPaths h baseUri normalizedPath))
        as [cands|e]; [|discriminate].
      exists cands. split; [reflexivity|]. rewrite app_nil_r. exact H.
  - cbn [result ret snd andb] in H. rewrite result_bind in H.
    destruct (result (resolveCustomMappingPaths h baseUri normalizedPath))
      as [cands|e]; [|discriminate].
    exists cands. split; [reflexivity|]. rewrite app_nil_r. exact H.
Qed.

Lemma mappedLoop_keeps_found h normalizedPath customMappingPaths :
  forall paths l,
    Forall (fun p => existsOnDisk h p = true) paths ->
    result (mappedLoop h normalizedPath customMappingPaths paths) = Ok l ->
    Forall (fun p => existsOnDisk h p = true) l.
Proof.
  induction customMappingPaths as [|mappedPath rest IH]; intros paths l Hpaths;
    cbn [mappedLoop].
  - intros [= <-]. exact Hpaths.
  - rewrite result_bind, result_fileExists.
    destruct (existsOnDisk h mappedPath) eqn:Efound; [|apply IH; exact Hpaths].
    assert (Hpaths' : Forall (fun p => existsOnDisk h p = true)
                             (paths ++ [mappedPath])%list).
    { apply Forall_app. split; [exact Hpaths | constructor; [exact Efound | constructor]]. }
    destruct (0 <? String.length normalizedPath)%nat.
    + intros [= <-]. exact Hpaths'.
    + apply IH. exact Hpaths'.
Qed.

Lemma accepted_candidates_exist h localPath rootPath :
  Forall (fun p => existsOnDisk h p = true)
         (filter (existsOnDisk h) [localPath]
          ++ filter (fun p => truthy p && existsOnDisk h p) (optionToList rootPath))%list.
Proof.
  apply Forall_app. split; apply Forall_forall; intros p Hin;
    apply filter_In in Hin as [_ Hp]; [exact Hp|].
  apply andb_true_iff in Hp as [_ Hp]. exact Hp.
Qed.

(** X1. Every path that [resolveDottedPaths] returns was found by the
    probe: the entry exists on disk. *)
Theorem resolved_paths_exist (h : Host) (dotPath : string) (baseUri : Uri)
        (l : list string) :
  result (resolveDottedPaths h dotPath baseUri) = Ok l ->
  Forall (fun p => existsOnDisk h p = true) l.
Proof.
  intros H. destruct (resolveDottedPaths_shape h dotPath baseUri l H)
    as (localPath & _ & Hshape).
  destruct (existsOnDisk h localPath
            && (0 <? String.length (JsString.replaceAll "." "/" dotPath))%nat)
    eqn:Elocal.
  { subst l. apply andb_true_iff in Elocal as [Elocal _].
    constructor; [exact Elocal | constructor]. }
  destruct Hshape as (rootPath & _ & Hroot).
  destruct (existsb (fun p => truthy p && existsOnDisk h p) (optionToList rootPath)
            && (0 <? String.length (JsString.replaceAll "." "/" dotPath))%nat)
    eqn:Eroot.
  - subst l. apply andb_true_iff in Eroot as [Eroot _].
    pose proof (accepted_candidates_exist h localPath rootPath) as Hacc.
    destruct rootPath as [p|]; cbn [optionToList existsb orb filter] in *;
      [|discriminate].
    rewrite orb_false_r in Eroot. rewrite Eroot in Hacc. exact Hacc.
  - destruct Hroot as (cands & _ & Hloop).
    apply (mappedLoop_keeps_found h _ cands _ l
             (accepted_candidates_exist h localPath rootPath) Hloop).
Qed.

Lemma resolved_paths_exist_witness :
  result (resolveDottedPaths threeTierHost "" (SampleHost.fileUri "/proj/dir"))
  = Ok ["/proj/dir"; "/proj"; "/lib"] /\
  Forall (fun p => existsOnDisk threeTierHost p = true) ["/proj/dir"; "/proj"; "/lib"].
Proof.
  split; [reflexivity|].
  apply (resolved_paths_exist threeTierHost "" (SampleHost.fileUri "/proj/dir")).
  reflexivity.
Defined.

(** The loop over the mapping candidates for a non-empty path: it probes
    the candidates in order up to the first one found, and adds that one. *)
Lemma mappedLoop_run_nonempty h normalizedPath customMappingPaths :
  (0 <? String.length normalizedPath)%nat = true ->
  forall paths,
    mappedLoop h normalizedPath customMappingPaths paths
    = (map (fun p => EvStat (Uri_file h p))
           (probedUntilFound (existsOnDisk h) customMappingPaths),
       Ok (paths ++ optionToList (find (existsOnDisk h) customMappingPaths))%list).
Proof.
  intros Hlen. induction customMappingPaths as [|mappedPath rest IH]; intros paths.
  - cbn. rewrite app_nil_r. reflexivity.
  - cbn [mappedLoop probedUntilFound find]. rewrite fileExists_run.
    destruct (existsOnDisk h mappedPath).
    + rewrite Hlen. reflexivity.
    + cbn [bind]. rewrite IH. reflexivity.
Qed.

(** X2. For a non-empty dotted path the tiers are a priority order:
    the list returned is the local candidate if it exists; otherwise the
    root candidate if there is one and it exists; otherwise the first
    mapping candidate, in table order, that exists; otherwise it is
    empty. *)
Theorem resolveDottedPaths_priority (h : Host) (dotPath : string) (baseUri : Uri)
        (l : list string) :
  dotPath <> "" ->
  result (resolveDottedPaths h dotPath baseUri) = Ok l ->
  exists localPath,
    result (resolveRelativePath h baseUri (JsString.replaceAll "." "/" dotPath))
    = Ok localPath /\
    if existsOnDisk h localPath then l = [localPath]
    else
      exists rootPath,
        result (resolveRootPath h baseUri (JsString.replaceAll "." "/" dotPath))
        = Ok rootPath /\
        match find (fun p => truthy p && existsOnDisk h p) (optionToList rootPath) with
        | Some p => l = [p]
        | None =>
            exists customMappingPaths,
              result (resolveCustomMappingPaths h baseUri
                        (JsString.replaceAll "." "/" dotPath))
              = Ok customMappingPaths /\
              l = optionToList (find (existsOnDisk h) customMappingPaths)
        end.
Proof.
  intros Hne H. pose proof (nonempty_normalized dotPath Hne) as Hlen.
  destruct (resolveDottedPaths_shape h dotPath baseUri l H)
    as (localPath & Hlocal & Hshape).
  exists localPath. split; [exact Hlocal|].
  rewrite Hlen, !andb_true_r in Hshape. cbn [filter] in Hshape.
  destruct (existsOnDisk h localPath); [exact Hshape|].
  destruct Hshape as (rootPath & Hroot & Hshape).
  exists rootPath. split; [exact Hroot|]. rewrite andb_true_r in Hshape.
  destruct rootPath as [p|]; cbn [optionToList existsb find filter orb app] in *.
  - rewrite orb_false_r in Hshape.
    destruct (truthy p && existsOnDisk h p); [exact Hshape|].
    destruct Hshape as (cands & Hcands & Hloop). exists cands. split; [exact Hcands|].
    rewrite (mappedLoop_run_nonempty h _ cands Hlen) in Hloop.
    cbn [result snd app] in Hloop. injection Hloop as <-. reflexivity.
  - destruct Hshape as (cands & Hcands & Hloop). exists cands. split; [exact Hcands|].
    rewrite (mappedLoop_run_nonempty h _ cands Hlen) in Hloop.
    cbn [result snd app] in Hloop. injection Hloop as <-. reflexivity.
Qed.

Lemma resolveDottedPaths_priority_witness :
  "a.b" <> "" /\
  result (resolveDottedPaths threeTierHost "a.b" (SampleHost.fileUri "/elsewhere"))
  = Ok ["/proj/a/b"] /\
  exists localPath,
    result (resolveRelativePath threeTierHost (SampleHost.fileUri "/elsewhere")
                                (JsString.replaceAll "." "/" "a.b"))
    = Ok localPath /\
    if existsOnDisk threeTierHost localPath then ["/proj/a/b"] = [localPath]
    else
      exists rootPath,
        result (resolveRootPath threeTierHost (SampleHost.fileUri "/elsewhere")
                                (JsString.replaceAll "." "/" "a.b"))
        = Ok rootPath /\
        match find (fun p => truthy p && existsOnDisk threeTierHost p)
                   (optionToList rootPath) with
        | Some p => ["/proj/a/b"] = [p]
        | None =>
            exists customMappingPaths,
              result (resolveCustomMappingPaths threeTierHost
                        (SampleHost.fileUri "/elsewhere")
                        (JsString.replaceAll "." "/" "a.b"))
              = Ok customMappingPaths /\
              ["/proj/a/b"] = optionToList (find (existsOnDisk threeTierHost)
                                                 customMappingPaths)
        end.
Proof.
  split; [discriminate|]. split; [reflexivity|].
  apply (resolveDottedPaths_priority threeTierHost "a.b"
           (SampleHost.fileUri "/elsewhere") ["/proj/a/b"]).
  - discriminate.
  - reflexivity.
Defined.

(** X3. In the mapping tier of a non-empty dotted path the probing stops
    at the first candidate found: the candidates before it are probed and
    missed, it is probed and added, the candidates after it are not
    probed. *)
Theorem mapping_probes_stop_at_first_found (h : Host) (normalizedPath : string)
        (missed : list string) (found : string) (later paths : list string) :
  (0 <? String.length normalizedPath)%nat = true ->
  Forall (fun p => existsOnDisk h p = false) missed ->
  existsOnDisk h found = true ->
  mappedLoop h normalizedPath (missed ++ found :: later) paths
  = (map (fun p => EvStat (Uri_file h p)) (missed ++ [found]),
     Ok (paths ++ [found])%list).
Proof.
  intros Hlen Hmissed Hfound. rewrite (mappedLoop_run_nonempty h _ _ Hlen).
  assert (Hprobed : probedUntilFound (existsOnDisk h) (missed ++ found :: later)
                    = (missed ++ [found])%list).
  { induction Hmissed as [|p missed Hp _ IH]; cbn [app probedUntilFound].
    - rewrite Hfound. reflexivity.
    - rewrite Hp, IH. reflexivity. }
  assert (Hfind : find (existsOnDisk h) (missed ++ found :: later) = Some found).
  { clear Hprobed. induction Hmissed as [|p missed Hp _ IH]; cbn [app find].
    - rewrite Hfound. reflexivity.
    - rewrite Hp. exact IH. }
  rewrite Hprobed, Hfind. reflexivity.
Qed.

Lemma mapping_probes_stop_at_first_found_witness :
  (0 <? String.length "a/b")%nat = true /\
  Forall (fun p => existsOnDisk threeTierHost p = false) ["/old/b"] /\
  existsOnDisk threeTierHost "/lib/b" = true /\
  mappedLoop threeTierHost "a/b" (["/old/b"] ++ "/lib/b" :: ["/proj/a/b"]) []
  = ([EvStat (SampleHost.fileUri "/old/b"); EvStat (SampleHost.fileUri "/lib/b")],
     Ok ["/lib/b"]).
Proof.
  split; [reflexivity|]. split; [repeat constructor|]. split; [reflexivity|].
  apply (mapping_probes_stop_at_first_found threeTierHost "a/b" ["/old/b"] "/lib/b"
           ["/proj/a/b"] []).
  - reflexivity.
  - repeat constructor.
  - reflexivity.
Defined.

(** X4. For a non-empty dotted path whose local candidate is missing and
    whose root candidate exists, [resolveDottedPaths] returns the root
    candidate alone; it probes the local candidate, asks for the workspace
    folder, probes the root candidate, and never reads the mapping
    table. *)
Theorem root_hit_short_circuits (h : Host) (dotPath : string)
        (baseUri joined root joinedRoot : Uri) (fileStat : FileStat) :
  dotPath <> "" ->
  Uri_joinPath h baseUri (JsString.replaceAll "." "/" dotPath) = Ok joined ->
  existsOnDisk h (fsPath h joined) = false ->
  getWorkspaceFolder h baseUri = Some root ->
  Uri_joinPath h root (JsString.replaceAll "." "/" dotPath) = Ok joinedRoot ->
  fsPath h joinedRoot <> "" ->
  fs_stat h (Uri_file h (fsPath h joinedRoot)) = Ok fileStat ->
  resolveDottedPaths h dotPath baseUri
  = ([EvStat (Uri_file h (fsPath h joined));
      EvGetWorkspaceFolder baseUri;
      EvStat (Uri_file h (fsPath h joinedRoot))],
     Ok [fsPath h joinedRoot]).
Proof.
  intros Hne Hjoin Hlocal Hroot HjoinRoot Htruthy Hstat.
  unfold resolveDottedPaths, resolveRelativePath, resolveRootPath.
  rewrite Hjoin, Hroot, HjoinRoot. unfold lift, emit.
  cbn [bind ret app]. rewrite !fileExists_run, Hlocal.
  assert (Ht : truthy (fsPath h joinedRoot) = true).
  { unfold truthy. destruct (String.eqb_spec (fsPath h joinedRoot) "");
      [contradiction | reflexivity]. }
  cbn [bind ret app andb]. rewrite Ht.
  unfold existsOnDisk. rewrite Hstat. cbn [bind ret app andb].
  rewrite (nonempty_normalized dotPath Hne). reflexivity.
Qed.

Lemma root_hit_short_circuits_witness :
  "a.b" <> "" /\
  existsOnDisk threeTierHost "/elsewhere/a/b" = false /\
  existsOnDisk threeTierHost "/lib/b" = true /\
  resolveDottedPaths threeTierHost "a.b" (SampleHost.fileUri "/elsewhere")
  = ([EvStat (SampleHost.fileUri "/elsewhere/a/b");
      EvGetWorkspaceFolder (SampleHost.fileUri "/elsewhere");
      EvStat (SampleHost.fileUri "/proj/a/b")],
     Ok ["/proj/a/b"]).
Proof.
  split; [discriminate|]. split; [reflexivity|]. split; [reflexivity|].
  apply (root_hit_short_circuits threeTierHost "a.b" (SampleHost.fileUri "/elsewhere")
           (SampleHost.fileUri "/elsewhere/a/b") (SampleHost.fileUri "/proj")
           (SampleHost.fileUri "/proj/a/b") {| ftype := FileType.File |}).
  - discriminate.
  - reflexivity.
  - reflexivity.
  - reflexivity.
  - reflexivity.
  - discriminate.
  - reflexivity.
Defined.

(** X5. For a base location outside every workspace folder and an empty
    mapping table, only the local candidate counts: the list returned is
    that candidate if it exists and is empty otherwise, and the only probe
    of the file system is the one of the local candidate. *)
Theorem outside_workspace_only_local (h : Host) (dotPath : string)
        (baseUri joined : Uri) :
  getWorkspaceFolder h baseUri = None ->
  getMappings h baseUri = [] ->
  Uri_joinPath h baseUri (JsString.replaceAll "." "/" dotPath) = Ok joined ->
  result (resolveDottedPaths h dotPath baseUri)
  = Ok (filter (existsOnDisk h) [fsPath h joined]) /\
  filter isProbe (events (resolveDottedPaths h dotPath baseUri))
  = [EvStat (Uri_file h (fsPath h joined))].
Proof.
  intros Hroot Hmappings Hjoin.
  unfold resolveDottedPaths, resolveRelativePath, resolveRootPath,
    resolveCustomMappingPaths.
  rewrite Hjoin, Hroot, Hmappings. unfold lift, emit.
  cbn [bind ret app mappingLoop]. rewrite fileExists_run.
  cbn [bind ret app filter].
  destruct (existsOnDisk h (fsPath h joined));
    destruct (0 <? String.length (JsString.replaceAll "." "/" dotPath))%nat;
    split; reflexivity.
Qed.

Lemma outside_workspace_only_local_witness :
  getWorkspaceFolder siblingHost (SampleHost.fileUri "/proj/dir") = None /\
  getMappings siblingHost (SampleHost.fileUri "/proj/dir") = [] /\
  result (resolveDottedPaths siblingHost "a.b" (SampleHost.fileUri "/proj/dir"))
  = Ok (filter (existsOnDisk siblingHost) ["/proj/dir/a/b"]) /\
  filter isProbe (events (resolveDottedPaths siblingHost "a.b"
                                             (SampleHost.fileUri "/proj/dir")))
  = [EvStat (SampleHost.fileUri "/proj/dir/a/b")].
Proof.
  split; [reflexivity|]. split; [reflexivity|].
  apply (outside_workspace_only_local siblingHost "a.b" (SampleHost.fileUri "/proj/dir")
           (SampleHost.fileUri "/proj/dir/a/b")); reflexivity.
Defined.

(** X6. A mapping table without a root-relative mapping is resolved
    without the workspace: the only request of
    [resolveCustomMappingPaths] is the one for the table. *)
Theorem physical_mappings_ignore_workspace (h : Host) (baseUri : Uri)
        (appendingPath : string) :
  Forall (fun mapping => isPhysicalDirectoryPath mapping <> Some false)
         (getMappings h baseUri) ->
  events (resolveCustomMappingPaths h baseUri appendingPath)
  = [EvGetConfiguration baseUri].
Proof.
  intros Hphysical. unfold resolveCustomMappingPaths.
  rewrite events_bind. cbn [result events emit fst snd].
  assert (Hloop : forall acc,
             events (mappingLoop h baseUri appendingPath
                       (JsString.replaceAll "\" "/" appendingPath)
                       (getMappings h baseUri) acc) = []).
  { induction Hphysical as [|mapping rest Hm _ IH]; intros acc; cbn [mappingLoop].
    - reflexivity.
    - rewrite events_bind. change (result (lift ?o)) with o.
      change (events (lift ?o)) with (@nil Event).
      destruct (logicalPathStartTest _ _) as [[|]|e]; [|apply IH|reflexivity].
      cbn [app]. rewrite events_bind.
      assert (Hbase : match isPhysicalDirectoryPath mapping with
                      | Some false => resolveRootPath h baseUri (directoryPath mapping)
                      | _ => ret (Some (directoryPath mapping))
                      end = ret (Some (directoryPath mapping))).
      { destruct (isPhysicalDirectoryPath mapping) as [[|]|];
          [reflexivity | contradiction | reflexivity]. }
      rewrite Hbase. cbn [result events ret fst snd app].
      rewrite events_bind. change (result (lift ?o)) with o.
      change (events (lift ?o)) with (@nil Event).
      destruct (Uri_parse h (Some (directoryPath mapping))) as [parsed|e];
        [|reflexivity].
      cbn [app]. rewrite events_bind. change (result (lift ?o)) with o.
      change (events (lift ?o)) with (@nil Event).
      destruct (Uri_joinPath h parsed _) as [joinedPath|e]; [|reflexivity].
      cbn [app]. apply IH. }
  rewrite Hloop. reflexivity.
Qed.

Lemma physical_mappings_ignore_workspace_witness :
  Forall (fun mapping => isPhysicalDirectoryPath mapping <> Some false)
         (getMappings threeTierHost (SampleHost.fileUri "/proj/dir")) /\
  events (resolveCustomMappingPaths threeTierHost (SampleHost.fileUri "/proj/dir") "a/b")
  = [EvGetConfiguration (SampleHost.fileUri "/proj/dir")].
Proof.
  split; [repeat constructor; discriminate|].
  apply (physical_mappings_ignore_workspace threeTierHost
           (SampleHost.fileUri "/proj/dir") "a/b").
  repeat constructor; discriminate.
Defined.

(* ================================================================== *)
(** ** Links: what resolves and what does not *)
(* ================================================================== *)

Lemma result_try_catch {A} (m : M A) (handler : JsError -> M A) :
  result (try_catch m handler)
  = match result m with
    | Ok a => Ok a
    | Throw e => result (handler e)
    end.
Proof.
  destruct m as [l [a|e]]; cbn; [reflexivity|]. destruct (handler e); reflexivity.
Qed.

(** X7. A target that [resolveLink] returns is either the link text
    itself, accepted by [isUri] and parsed with a scheme, or a location
    that the probe found and that [stat] reports as a regular file: a
    missing entry, a directory or any other kind is never a target. *)
Theorem resolved_target_is_uri_or_file (h : Host) (document : TextDocument)
        (link : string) (target : Uri) :
  result (resolveLink h document link) = Ok (Some target) ->
  (isUri h link = true /\ Uri_parse h (Some link) = Ok target /\
   scheme target <> "") \/
  (existsOnDisk h (fsPath h target) = true /\
   exists fileStat,
     fs_stat h target = Ok fileStat /\ ftype fileStat = FileType.File).
Proof.
  unfold resolveLink.
  destruct (JsString.startsWith link "#"); [discriminate|].
  rewrite result_bind.
  match goal with
  | |- match result ?m with _ => _ end = _ -> _ =>
      assert (HasUri : forall parsed,
                 result m = Ok (Some parsed) ->
                 isUri h link = true /\ Uri_parse h (Some link) = Ok parsed /\
                 scheme parsed <> "");
        [|destruct (result m) as [[parsed|]|e] eqn:EasUri]
  end.
  - intros parsed. destruct (isUri h link); [|discriminate].
    rewrite result_try_catch, result_bind. change (result (lift ?o)) with o.
    destruct (Uri_parse h (Some link)) as [u|e]; [|discriminate].
    unfold truthy. destruct (String.eqb_spec (scheme u) ""); [discriminate|].
    intros [= <-]. auto.
  - intros [= <-]. left. apply HasUri. reflexivity.
  - clear HasUri EasUri. rewrite result_bind.
    match goal with
    | |- match result ?m with _ => _ end = _ -> _ =>
        destruct (result m) as [[resource|]|e]
    end; [| discriminate..].
    rewrite result_bind, result_fileExists.
    destruct (existsOnDisk h (fsPath h resource)) eqn:Efound; [|discriminate].
    rewrite result_bind. unfold stat. rewrite result_bind.
    cbn [result emit snd]. change (result (lift ?o)) with o.
    destruct (fs_stat h resource) as [fileStat|e] eqn:Estat; [|discriminate].
    destruct (N.eqb_spec (ftype fileStat) FileType.File) as [Ekind|Ekind];
      [|discriminate].
    intros [= <-]. right. split; [exact Efound|]. exists fileStat. auto.
  - discriminate.
Qed.

Lemma resolved_target_is_uri_or_file_witness :
  result (resolveLink imgHost imgDocument "/a/b.png")
  = Ok (Some (SampleHost.fileUri "/proj/a/b.png")) /\
  ((isUri imgHost "/a/b.png" = true /\
    Uri_parse imgHost (Some "/a/b.png") = Ok (SampleHost.fileUri "/proj/a/b.png") /\
    scheme (SampleHost.fileUri "/proj/a/b.png") <> "") \/
   (existsOnDisk imgHost (fsPath imgHost (SampleHost.fileUri "/proj/a/b.png")) = true /\
    exists fileStat,
      fs_stat imgHost (SampleHost.fileUri "/proj/a/b.png") = Ok fileStat /\
      ftype fileStat = FileType.File)).
Proof.
  split; [reflexivity|].
  apply (resolved_target_is_uri_or_file imgHost imgDocument "/a/b.png").
  reflexivity.
Defined.

Lemma beforeQueryOrFragment_suffix link c rest :
  JsString.beforeQueryOrFragment link = link ->
  c = "?"%char \/ c = "#"%char ->
  JsString.beforeQueryOrFragment (link ++ String c rest) = link.
Proof.
  intros Hclean Hc. induction link as [|d link IH]; cbn [String.append].
  - cbn. destruct Hc as [-> | ->]; reflexivity.
  - cbn [JsString.beforeQueryOrFragment] in *.
    destruct (Ascii.eqb d "?" || Ascii.eqb d "#"); [discriminate|].
    injection Hclean as Hclean. rewrite (IH Hclean). reflexivity.
Qed.

(** X8. A query or fragment suffix does not change what a link resolves
    to: for a non-empty link text without [?] and [#] that is not a URI,
    with or without the suffix, [resolveLink] makes the same requests and
    gives the same answer. *)
Theorem query_and_fragment_are_ignored (h : Host) (document : TextDocument)
        (link : string) (c : ascii) (rest : string) :
  link <> "" ->
  JsString.beforeQueryOrFragment link = link ->
  c = "?"%char \/ c = "#"%char ->
  isUri h link = false ->
  isUri h (link ++ String c rest) = false ->
  resolveLink h document (link ++ String c rest) = resolveLink h document link.
Proof.
  intros Hne Hclean Hc Huri Huri'.
  unfold resolveLink.
  rewrite Huri, Huri', (beforeQueryOrFragment_suffix link c rest Hclean Hc), Hclean.
  destruct link as [|d link]; [contradiction|].
  cbn [String.append]. unfold JsString.startsWith at 1 3.
  cbn [JsString.stripPrefix]. destruct (Ascii.eqb "#" d); reflexivity.
Qed.

Lemma query_and_fragment_are_ignored_witness :
  "/a/b.png" <> "" /\
  JsString.beforeQueryOrFragment "/a/b.png" = "/a/b.png" /\
  isUri imgHost "/a/b.png" = false /\
  isUri imgHost ("/a/b.png" ++ String "?" "v=2#top") = false /\
  resolveLink imgHost imgDocument ("/a/b.png" ++ String "?" "v=2#top")
  = resolveLink imgHost imgDocument "/a/b.png".
Proof.
  split; [discriminate|]. split; [reflexivity|]. split; [reflexivity|].
  split; [reflexivity|].
  apply (query_and_fragment_are_ignored imgHost imgDocument "/a/b.png" "?" "v=2#top").
  - discriminate.
  - reflexivity.
  - left. reflexivity.
  - reflexivity.
  - reflexivity.
Defined.

(** X9. A root-relative link in a document outside every workspace folder
    does not resolve, and nothing is probed: the only request is the one
    for the workspace folder. *)
Theorem root_relative_link_outside_workspace (h : Host) (document : TextDocument)
        (rest : string) :
  isUri h (String "/" rest) = false ->
  getWorkspaceFolder h (uri document) = None ->
  resolveLink h document (String "/" rest)
  = ([EvGetWorkspaceFolder (uri document)], Ok None).
Proof.
  intros Huri Hroot. unfold resolveLink. rewrite Huri, Hroot. reflexivity.
Qed.

Lemma root_relative_link_outside_workspace_witness :
  isUri rootlessHost (String "/" "a/b.png") = false /\
  getWorkspaceFolder rootlessHost (uri imgDocument) = None /\
  resolveLink rootlessHost imgDocument (String "/" "a/b.png")
  = ([EvGetWorkspaceFolder (uri imgDocument)], Ok None).
Proof.
  split; [reflexivity|]. split; [reflexivity|].
  apply (root_relative_link_outside_workspace rootlessHost imgDocument "a/b.png");
    reflexivity.
Defined.

(** X10. A document-relative link is looked up under the file name of the
    document itself: the link path is joined onto
    [Uri.parse(document.fileName)], not onto its directory.  The link
    resolves to that location when the probe finds it and [stat] reports a
    regular file; it does not resolve when the probe misses it or [stat]
    reports another kind; a failure of that [stat] is raised. *)
Theorem relative_link_joins_file_name (h : Host) (document : TextDocument)
        (link : string) (base joined : Uri) :
  JsString.startsWith link "#" = false ->
  JsString.startsWith (JsString.beforeQueryOrFragment link) "/" = false ->
  isUri h link = false ->
  Uri_parse h (Some (fileName document)) = Ok base ->
  Uri_joinPath h base (JsString.beforeQueryOrFragment link) = Ok joined ->
  hd_error (events (resolveLink h document link))
  = Some (EvStat (Uri_file h (fsPath h joined))) /\
  result (resolveLink h document link)
  = if existsOnDisk h (fsPath h joined)
    then match fs_stat h joined with
         | Ok fileStat =>
             Ok (if N.eqb (ftype fileStat) FileType.File then Some joined else None)
         | Throw e => Throw e
         end
    else Ok None.
Proof.
  intros Hfragment Hroot Huri Hparse Hjoin. unfold resolveLink.
  rewrite Hfragment, Huri, Hroot, andb_false_r, Hparse.
  change (lift (Ok base)) with (ret base). rewrite !bind_ret_l.
  rewrite Hjoin. change (lift (Ok joined)) with (ret joined). rewrite !bind_ret_l.
  rewrite fileExists_run. unfold stat, emit, lift.
  destruct (existsOnDisk h (fsPath h joined)); cbn [bind ret app events result fst snd hd_error];
    [|split; reflexivity].
  destruct (fs_stat h joined) as [fileStat|e]; [|split; reflexivity].
  destruct (N.eqb (ftype fileStat) FileType.File); split; reflexivity.
Qed.

Lemma relative_link_joins_file_name_witness :
  JsString.startsWith "a/b.png" "#" = false /\
  isUri imgHost "a/b.png" = false /\
  Uri_parse imgHost (Some (fileName imgDocument)) = Ok (SampleHost.fileUri "/proj/page.cfm") /\
  hd_error (events (resolveLink imgHost imgDocument "a/b.png"))
  = Some (EvStat (SampleHost.fileUri "/proj/page.cfm/a/b.png")) /\
  result (resolveLink imgHost imgDocument "a/b.png") = Ok None.
Proof.
  split; [reflexivity|]. split; [reflexivity|]. split; [reflexivity|].
  apply (relative_link_joins_file_name imgHost imgDocument "a/b.png"
           (SampleHost.fileUri "/proj/page.cfm")
           (SampleHost.fileUri "/proj/page.cfm/a/b.png")); reflexivity.
Defined.

(* ================================================================== *)
(** ** Document links: the array over time *)
(* ================================================================== *)

(** X11. Whatever jobs have run so far, every link in the array is the
    link of a match of the document whose link text resolves: nothing else
    is ever pushed. *)
Theorem delivered_links_are_links_of_matches (h : Host) (document : TextDocument)
        (schedule : list nat) (link : DocumentLink) :
  In link (fst (runJobs schedule (snd (provideDocumentLinks h document))
                        (fst (provideDocumentLinks h document)))) ->
  In link (concat (documentEntries h document)).
Proof.
  intros Hin.
  destruct (runJobs_pending h document schedule _ _
              (fst (provideDocumentLinks h document))
              (provideDocumentLinks_pending h document))
    as (pendings & _ & Hperm).
  rewrite provideDocumentLinks_on_return in Hperm at 2. cbn [app] in Hperm.
  apply (Permutation_in link Hperm). apply in_or_app. left. exact Hin.
Qed.

Lemma delivered_links_are_links_of_matches_witness :
  In {| range := ({| line := 0; character := 10 |}, {| line := 0; character := 18 |});
        target := SampleHost.fileUri "/proj/a/b.png" |}
     (fst (runJobs [0] (snd (provideDocumentLinks imgHost imgDocument))
                   (fst (provideDocumentLinks imgHost imgDocument)))) /\
  In {| range := ({| line := 0; character := 10 |}, {| line := 0; character := 18 |});
        target := SampleHost.fileUri "/proj/a/b.png" |}
     (concat (documentEntries imgHost imgDocument)).
Proof.
  split; [left; reflexivity|].
  apply (delivered_links_are_links_of_matches imgHost imgDocument [0]).
  left. reflexivity.
Defined.

Lemma resumeNth_appends h document n : forall tasks pendings results,
  Forall2 (Pending h document) tasks pendings ->
  exists added, fst (resumeNth n tasks results) = (results ++ added)%list.
Proof.
  induction n as [|n IH]; intros tasks pendings results Hall.
  - destruct Hall as [|task pending tasks pendings Htask Hall].
    + exists []. cbn. rewrite app_nil_r. reflexivity.
    + destruct Htask as (linkIndex & matches & -> & _).
      destruct (suspendedAt_cases h document linkIndex matches)
        as [[E1 _] | (resume & pushed & rest & E1 & _ & E3)]; rewrite E1.
      * exists []. cbn. rewrite app_nil_r. reflexivity.
      * exists pushed. cbn [resumeNth]. rewrite E3. reflexivity.
  - destruct Hall as [|task pending tasks pendings Htask Hall].
    + exists []. cbn. rewrite app_nil_r. reflexivity.
    + destruct (IH tasks pendings results Hall) as [added E].
      exists added. cbn [resumeNth].
      destruct (resumeNth n tasks results) as [results' tasks'].
      destruct task; exact E.
Qed.

Lemma runJobs_appends h document schedule : forall tasks pendings results,
  Forall2 (Pending h document) tasks pendings ->
  exists added, fst (runJobs schedule tasks results) = (results ++ added)%list.
Proof.
  induction schedule as [|n schedule IH]; intros tasks pendings results Hall.
  - exists []. cbn. rewrite app_nil_r. reflexivity.
  - cbn [runJobs].
    destruct (resumeNth_appends h document n tasks pendings results Hall) as [added1 E1].
    destruct (resumeNth_pending h document n tasks pendings results Hall)
      as (pendings1 & Hall1 & _).
    destruct (resumeNth n tasks results) as [results1 tasks1]. cbn [fst snd] in *.
    destruct (IH tasks1 pendings1 results1 Hall1) as [added2 E2].
    exists (added1 ++ added2)%list. rewrite E2, E1, app_assoc. reflexivity.
Qed.

(** X12. The array only grows: the links it holds after some jobs are
    still there, in the same places, after any further jobs; a link once
    delivered is never removed or moved. *)
Theorem delivered_links_stay (h : Host) (document : TextDocument)
        (schedule further : list nat) :
  exists added,
    fst (runJobs (schedule ++ further) (snd (provideDocumentLinks h document))
                 (fst (provideDocumentLinks h document)))
    = (fst (runJobs schedule (snd (provideDocumentLinks h document))
                    (fst (provideDocumentLinks h document)))
       ++ added)%list.
Proof.
  rewrite runJobs_app.
  destruct (runJobs_pending h document schedule _ _
              (fst (provideDocumentLinks h document))
              (provideDocumentLinks_pending h document))
    as (pendings & Hall & _).
  apply (runJobs_appends h document further _ pendings _ Hall).
Qed.

(** X13. The span of a pushed link. For a match whose whole text is the
    text of the document at the index of the match, whose link text
    occurs in it and resolves, the job that follows the [await] pushes one
    link: its target is the resolved one, its range starts at the index of
    the match plus the index of the first occurrence of the link text in
    the match, and the text of the document over that range is the link
    text. *)
Theorem pushed_link_covers_its_text (h : Host) (document : TextDocument)
        (linkIndex : nat) (m : RegExpExecArray) (rest : list RegExpExecArray)
        (link whole : string) (n : nat) (target : Uri) (results : Store) :
  group m linkIndex = Some link ->
  group m 0 = Some whole ->
  String.substring (index m) (String.length whole) (getText document) = whole ->
  String.index 0 link whole = Some n ->
  result (resolveLink h document link) = Ok (Some target) ->
  exists resume,
    snd (linkLoop h document linkIndex (m :: rest) results) = Await resume /\
    (forall later,
        fst (resume later)
        = (later ++
           [{| range := (positionAt h document (Z.of_nat (index m + n)),
                         positionAt h document
                                    (Z.of_nat (index m + n + String.length link)));
               target := target |}])%list) /\
    JsString.span (index m + n) (String.length link) (getText document) = link.
Proof.
  intros Hlink Hwhole Htext Hindex Hresolved.
  destruct (link_span_slices_to_link (getText document) whole link (index m) n
              Htext Hindex) as [HindexOf Hspan].
  cbn [linkLoop]. rewrite Hlink, Hwhole, Hresolved, HindexOf. cbn [snd].
  eexists. split; [reflexivity|]. split; [|exact Hspan].
  intros later. rewrite linkLoop_run. cbn [fst].
  rewrite <- !Nat2Z.inj_add. reflexivity.
Qed.

Lemma pushed_link_covers_its_text_witness :
  group {| index := 5;
           groups := [Some "src='/a/b.png'"; Some "src"; Some "'"; Some "/a/b.png"] |} 3
  = Some "/a/b.png" /\
  String.substring 5 (String.length "src='/a/b.png'") (getText imgDocument)
  = "src='/a/b.png'" /\
  String.index 0 "/a/b.png" "src='/a/b.png'" = Some 5 /\
  result (resolveLink imgHost imgDocument "/a/b.png")
  = Ok (Some (SampleHost.fileUri "/proj/a/b.png")) /\
  JsString.span (5 + 5) (String.length "/a/b.png") (getText imgDocument) = "/a/b.png".
Proof.
  split; [reflexivity|]. split; [reflexivity|]. split; [reflexivity|].
  split; [reflexivity|].
  destruct (pushed_link_covers_its_text imgHost imgDocument 3
              {| index := 5;
                 groups := [Some "src='/a/b.png'"; Some "src"; Some "'";
                            Some "/a/b.png"] |}
              [] "/a/b.png" "src='/a/b.png'" 5 (SampleHost.fileUri "/proj/a/b.png") []
              eq_refl eq_refl eq_refl eq_refl eq_refl)
    as (resume & _ & _ & Hspan).
  exact Hspan.
Defined.

(* ================================================================== *)
(** ** The filters: kinds and composition *)
(* ================================================================== *)

Lemma filter_filter_none {A} (keep1 keep2 : A -> bool) (l : list A) :
  (forall x, keep1 x = true -> keep2 x = false) ->
  filter keep2 (filter keep1 l) = [].
Proof.
  intros Hex. induction l as [|x l IH]; cbn [filter]; [reflexivity|].
  destruct (keep1 x) eqn:E; [|exact IH].
  cbn [filter]. rewrite (Hex x E). exact IH.
Qed.

Lemma filter_filter_same {A} (keep : A -> bool) (l : list A) :
  filter keep (filter keep l) = filter keep l.
Proof.
  induction l as [|x l IH]; cbn [filter]; [reflexivity|].
  destruct (keep x) eqn:E; [|exact IH].
  cbn [filter]. rewrite E, IH. reflexivity.
Qed.

(** X14. The two filters compose as a partition does: filtering twice is
    filtering once, a listing filtered to its directories holds no
    component and a listing filtered to its components holds no
    directory, and each filter goes through the concatenation of two
    listings. *)
Theorem filters_compose (files more : list (string * FileType.t)) :
  filterDirectories (filterDirectories files) = filterDirectories files /\
  filterComponents (filterComponents files) = filterComponents files /\
  filterComponents (filterDirectories files) = [] /\
  filterDirectories (filterComponents files) = [] /\
  filterDirectories (files ++ more) = (filterDirectories files ++ filterDirectories more)%list /\
  filterComponents (files ++ more) = (filterComponents files ++ filterComponents more)%list.
Proof.
  unfold filterDirectories, filterComponents, FileType.t.
  split; [apply filter_filter_same|]. split; [apply filter_filter_same|].
  split; [|split; [|split; apply filter_app]].
  - apply filter_filter_none. intros file.
    destruct (N.eqb_spec (snd file) FileType.Directory) as [E|]; [|discriminate].
    intros _. rewrite E. reflexivity.
  - apply filter_filter_none. intros file.
    destruct (N.eqb_spec (snd file) FileType.File) as [E|]; [|discriminate].
    intros _. rewrite E. reflexivity.
Qed.

(** X15. An entry whose kind carries the symbolic-link bit is kept by
    neither filter: a link to a directory is not listed as a directory, a
    link to a component file is not listed as a component. *)
Theorem symbolic_links_are_dropped (files : list (string * FileType.t))
        (file : string * FileType.t) :
  N.testbit (snd file) 6 = true ->
  ~ In file (filterDirectories files) /\ ~ In file (filterComponents files).
Proof.
  intros Hbit. split; intros Hin.
  - apply in_filterDirectories in Hin as [_ Hkind]. rewrite Hkind in Hbit. discriminate.
  - apply in_filterComponents in Hin as (_ & Hkind & _). rewrite Hkind in Hbit.
    discriminate.
Qed.

Lemma symbolic_links_are_dropped_witness :
  N.testbit (snd ("Linked.cfc", 65%N)) 6 = true /\
  In ("Linked.cfc", 65%N) sampleListing /\
  ~ In ("Linked.cfc", 65%N) (filterDirectories sampleListing) /\
  ~ In ("Linked.cfc", 65%N) (filterComponents sampleListing).
Proof.
  split; [reflexivity|]. split; [cbn; tauto|].
  apply (symbolic_links_are_dropped sampleListing ("Linked.cfc", 65%N)).
  reflexivity.
Defined.

Lemma getDirectories_getComponents_witness :
  Uri_parse (withListing threeTierHost (Ok sampleListing)) (Some "/proj")
  = Ok (SampleHost.fileUri "/proj") /\
  result (getDirectories (withListing threeTierHost (Ok sampleListing)) "/proj")
  = Ok [("models", FileType.Directory)] /\
  result (getComponents (withListing threeTierHost (Ok sampleListing)) "/proj")
  = Ok [("User.cfc", FileType.File); ("Order.CFC", FileType.File)].
Proof.
  split; [reflexivity|].
  apply (getDirectories_getComponents (withListing threeTierHost (Ok sampleListing))
           "/proj" (SampleHost.fileUri "/proj")).
  reflexivity.
Defined.

(* ================================================================== *)
(** ** Mappings and links at the edges *)
(* ================================================================== *)

(** X17. A mapping whose logical path is [/], or empty, or any single
    character, has the empty prefix: it matches the empty path and the
    paths that start with a separator, and no other; so it matches no
    component path such as [a/b]. *)
Theorem root_mapping_matches_only_rooted_paths (mapping : CFMLMapping)
        (normalizedPath : string) :
  JsString.slice 1 (logicalPath mapping) = "" ->
  logicalPathStartTest (JsString.slice 1 (logicalPath mapping)) normalizedPath
  = Ok (JsString.startsWith normalizedPath "/" || String.eqb normalizedPath "").
Proof.
  intros Hempty. rewrite Hempty.
  rewrite (logicalPathStartTest_literal "" normalizedPath eq_refl). reflexivity.
Qed.

Lemma root_mapping_matches_only_rooted_paths_witness :
  JsString.slice 1 "/" = "" /\
  logicalPathStartTest (JsString.slice 1 "/") "a/b" = Ok false /\
  logicalPathStartTest (JsString.slice 1 "/") "a/b"
  = Ok (JsString.startsWith "a/b" "/" || String.eqb "a/b" "").
Proof.
  split; [reflexivity|]. split; [reflexivity|].
  apply (root_mapping_matches_only_rooted_paths
           {| logicalPath := "/"; directoryPath := "/lib";
              isPhysicalDirectoryPath := None |} "a/b").
  reflexivity.
Defined.

(** X18. A link text that [isUri] accepts but [Uri.parse] rejects is not
    lost: the exception is dropped and the link is resolved as a path,
    with the requests and the answer it would have if [isUri] had
    refused it. *)
Theorem rejected_uri_is_resolved_as_path (h : Host) (document : TextDocument)
        (link : string) (e : JsError) :
  Uri_parse h (Some link) = Throw e ->
  resolveLink h document link = resolveLink (withoutUris h) document link.
Proof.
  intros Hparse. unfold resolveLink.
  destruct (JsString.startsWith link "#"); [reflexivity|].
  cbn [withoutUris isUri Uri_parse Uri_joinPath getWorkspaceFolder fsPath].
  destruct (isUri h link); [|reflexivity].
  rewrite Hparse. reflexivity.
Qed.

Lemma rejected_uri_is_resolved_as_path_witness :
  Uri_parse strictParseHost (Some "/a/b.png") = Throw UriError /\
  resolveLink strictParseHost imgDocument "/a/b.png"
  = resolveLink (withoutUris strictParseHost) imgDocument "/a/b.png" /\
  result (resolveLink strictParseHost imgDocument "/a/b.png")
  = Ok (Some (SampleHost.fileUri "/proj/a/b.png")).
Proof.
  split; [reflexivity|]. split; [|reflexivity].
  apply (rejected_uri_is_resolved_as_path strictParseHost imgDocument "/a/b.png"
           UriError).
  reflexivity.
Defined.

(* ================================================================== *)
(** ** The mapping tier in the words of the specification *)
(* ================================================================== *)

Lemma append_assoc (a b c : string) : (a ++ b) ++ c = a ++ b ++ c.
Proof. induction a as [|x a IH]; simpl; [reflexivity | rewrite IH; reflexivity]. Qed.

Lemma matchesPrefix_stripPrefix s : forall p,
  matchesPrefix s p
  = match JsString.stripPrefix s p with
    | Some rest => JsString.startsWith rest "/" || String.eqb rest ""
    | None => false
    end.
Proof.
  induction s as [|a s IH]; intros p.
  - unfold matchesPrefix. cbn [append JsString.stripPrefix]. apply orb_comm.
  - destruct p as [|b p]; [reflexivity|].
    specialize (IH p). unfold matchesPrefix, JsString.startsWith in *.
    cbn [append JsString.stripPrefix String.eqb].
    destruct (Ascii.eqb_spec a b) as [->|Hne].
    + rewrite Ascii.eqb_refl. cbn [andb]. exact IH.
    + destruct (Ascii.eqb_spec b a) as [->|_]; [contradiction | reflexivity].
Qed.

(** The test [matchesPrefix] decides the rule of the specification. *)
Lemma matchesPrefix_iff s p :
  matchesPrefix s p = true <-> isPrefixOfSegments s p.
Proof.
  unfold matchesPrefix, isPrefixOfSegments, JsString.startsWith.
  rewrite orb_true_iff, String.eqb_eq. split; intros [H | H]; auto; right.
  - destruct (JsString.stripPrefix (s ++ "/") p) as [rest|] eqn:E; [|discriminate].
    apply stripPrefix_Some in E. exists rest. rewrite E. apply append_assoc.
  - destruct H as [rest H]. rewrite <- append_assoc in H.
    apply stripPrefix_Some in H. rewrite H. reflexivity.
Qed.

Lemma slice_length_append s rest :
  JsString.slice (String.length s) (s ++ rest) = rest.
Proof. induction s; simpl; auto. Qed.

Lemma slice_1_strippedPrefix mapping :
  JsString.slice 1 (logicalPath mapping) = strippedPrefix mapping.
Proof. unfold strippedPrefix. destruct (logicalPath mapping); reflexivity. Qed.

(** For a plain mapping that matches by the rule of the specification, the
    candidate the code builds is the candidate the specification
    describes. *)
Lemma plain_candidate h baseUri path mapping :
  plainMapping h baseUri mapping ->
  matchesPrefix (strippedPrefix mapping) path = true ->
  forall candidate,
    mappingCandidate h baseUri path mapping = Ok candidate <->
    isCandidateOf h baseUri path mapping candidate.
Proof.
  intros [_ Hroot] Hmatch candidate.
  rewrite matchesPrefix_stripPrefix in Hmatch.
  destruct (JsString.stripPrefix (strippedPrefix mapping) path) as [rest0|] eqn:E;
    [clear Hmatch | discriminate].
  apply stripPrefix_Some in E.
  assert (Hrem : remainder mapping path = rest0).
  { unfold remainder. rewrite slice_1_strippedPrefix, E. apply slice_length_append. }
  unfold mappingCandidate, isCandidateOf, isPhysicalBase, effectiveBase.
  rewrite Hrem. clear Hrem.
  assert (Hbase : forall base,
             match Uri_parse h (Some base) with
             | Ok parsed =>
                 match Uri_joinPath h parsed rest0 with
                 | Ok joined => Ok (fsPath h joined)
                 | Throw e => Throw e
                 end
             | Throw e => Throw e
             end = Ok candidate <->
             exists rest parsed joined,
               path = strippedPrefix mapping ++ rest /\
               Uri_parse h (Some base) = Ok parsed /\
               Uri_joinPath h parsed rest = Ok joined /\
               candidate = fsPath h joined).
  { intros base. split.
    - destruct (Uri_parse h (Some base)) as [parsed|e]; [|discriminate].
      destruct (Uri_joinPath h parsed rest0) as [joined|e] eqn:Ejoin; [|discriminate].
      intros [= <-]. exists rest0, parsed, joined. repeat split; assumption.
    - intros (rest & parsed & joined & Hpath & -> & Hjoin & ->).
      rewrite E in Hpath. apply append_cancel in Hpath. subst rest0.
      rewrite Hjoin. reflexivity. }
  destruct (isPhysicalDirectoryPath mapping) as [[|]|].
  - rewrite Hbase. split.
    + intros (rest & parsed & joined & H). exists (directoryPath mapping), rest, parsed, joined.
      split; [reflexivity | exact H].
    + intros (base & rest & parsed & joined & -> & H). exists rest, parsed, joined. exact H.
  - unfold resolveRootPath. rewrite result_bind. cbn [result emit snd].
    destruct (getWorkspaceFolder h baseUri) as [root|];
      [|exfalso; apply Hroot; reflexivity].
    rewrite result_bind. change (result (lift ?o)) with o.
    destruct (Uri_joinPath h root (directoryPath mapping)) as [rooted|e] eqn:Erooted.
    + cbn [result ret snd]. rewrite Hbase. split.
      * intros (rest & parsed & joined & H).
        exists (fsPath h rooted), rest, parsed, joined.
        split; [|exact H].
        exists root, rooted. split; [reflexivity|]. split; [exact Erooted | reflexivity].
      * intros (base & rest & parsed & joined & (root' & rooted' & Hr & Hj & ->) & Hrest).
        injection Hr as <-. rewrite Erooted in Hj. injection Hj as <-.
        exists rest, parsed, joined. exact Hrest.
    + split; [discriminate|].
      intros (base & rest & parsed & joined & (root' & rooted' & Hr & Hj & _) & _).
      injection Hr as <-. rewrite Erooted in Hj. discriminate.
  - rewrite Hbase. split.
    + intros (rest & parsed & joined & H). exists (directoryPath mapping), rest, parsed, joined.
      split; [reflexivity | exact H].
    + intros (base & rest & parsed & joined & -> & H). exists rest, parsed, joined. exact H.
Qed.

Lemma mappingLoop_plain h baseUri path cfmlMappings :
  Forall (plainMapping h baseUri) cfmlMappings ->
  forall customMappingPaths l,
    result (mappingLoop h baseUri path path cfmlMappings customMappingPaths) = Ok l <->
    exists candidates,
      l = (customMappingPaths ++ candidates)%list /\
      Forall2 (isCandidateOf h baseUri path)
              (filter (fun mapping => matchesPrefix (strippedPrefix mapping) path)
                      cfmlMappings)
              candidates.
Proof.
  induction 1 as [|mapping rest Hplain _ IH]; intros acc l.
  - cbn [mappingLoop filter]. split.
    + intros [= <-]. exists []. rewrite app_nil_r. split; [reflexivity | constructor].
    + intros (candidates & -> & H). inversion H. rewrite app_nil_r. reflexivity.
  - cbn [mappingLoop filter]. rewrite result_bind. change (result (lift ?o)) with o.
    assert (Hlit : isLiteral (JsString.slice 1 (logicalPath mapping)) = true)
      by (rewrite slice_1_strippedPrefix; apply Hplain).
    rewrite (logicalPathStartTest_literal _ path Hlit).
    rewrite <- matchesPrefix_stripPrefix.
    replace (matchesPrefix (JsString.slice 1 (logicalPath mapping)) path)
      with (matchesPrefix (strippedPrefix mapping) path)
      by (rewrite slice_1_strippedPrefix; reflexivity).
    destruct (matchesPrefix (strippedPrefix mapping) path) eqn:Ematch; [|apply IH].
    rewrite (result_candidate_step h baseUri path mapping
               (fun candidate =>
                  mappingLoop h baseUri path path rest (acc ++ [candidate])%list)).
    destruct (mappingCandidate h baseUri path mapping) as [candidate|e] eqn:Ecandidate.
    + rewrite IH. split.
      * intros (candidates & -> & H). exists (candidate :: candidates).
        rewrite <- app_assoc. split; [reflexivity|].
        constructor; [apply plain_candidate; assumption | exact H].
      * intros (candidates & -> & H). inversion H as [|? y ? tl Hy Htl]; subst.
        apply plain_candidate in Hy; [|assumption..].
        rewrite Ecandidate in Hy. injection Hy as <-.
        exists tl. rewrite <- app_assoc. split; [reflexivity | assumption].
    + split; [discriminate|]. intros (candidates & _ & H).
      inversion H as [|? y ? tl Hy Htl]; subst.
      apply plain_candidate in Hy; [|assumption..]. congruence.
Qed.

(** X22. The mapping tier on the tables the specification describes. For
    a path without backslashes and a table of plain mappings (stripped
    prefixes of ordinary characters, a project root where a mapping is
    relative to it), [resolveCustomMappingPaths] returns a list exactly
    when every mapping that matches by the rule of the specification has
    a candidate, and the list then holds these candidates, one for each
    matching mapping, in the order of the table: the effective physical
    base joined with what follows the stripped prefix in the path. The
    run never probes the file system. *)
Theorem plain_mappings_give_their_candidates (h : Host) (baseUri : Uri)
        (path : string) (l : list string) :
  JsString.replaceAll "\" "/" path = path ->
  Forall (plainMapping h baseUri) (getMappings h baseUri) ->
  (result (resolveCustomMappingPaths h baseUri path) = Ok l <->
   Forall2 (isCandidateOf h baseUri path)
           (filter (fun mapping => matchesPrefix (strippedPrefix mapping) path)
                   (getMappings h baseUri))
           l) /\
  Forall (fun e => isProbe e = false)
         (events (resolveCustomMappingPaths h baseUri path)).
Proof.
  intros Hpath Hplain. unfold resolveCustomMappingPaths. split.
  - rewrite result_bind. cbn [result emit snd]. rewrite Hpath.
    rewrite (mappingLoop_plain h baseUri path _ Hplain). split.
    + intros (candidates & -> & H). exact H.
    + intros H. exists l. split; [reflexivity | exact H].
  - apply events_bind_Forall; [repeat constructor|].
    intros _. apply mappingLoop_no_probe.
Qed.

Lemma plain_mappings_give_their_candidates_witness :
  JsString.replaceAll "\" "/" "foo/x/y" = "foo/x/y" /\
  Forall (plainMapping stackedHost (SampleHost.fileUri "/proj/dir"))
         (getMappings stackedHost (SampleHost.fileUri "/proj/dir")) /\
  result (resolveCustomMappingPaths stackedHost (SampleHost.fileUri "/proj/dir")
                                    "foo/x/y")
  = Ok ["/lib1/x/y"; "/proj/lib2/x/y"] /\
  Forall2 (isCandidateOf stackedHost (SampleHost.fileUri "/proj/dir") "foo/x/y")
          (filter (fun mapping => matchesPrefix (strippedPrefix mapping) "foo/x/y")
                  (getMappings stackedHost (SampleHost.fileUri "/proj/dir")))
          ["/lib1/x/y"; "/proj/lib2/x/y"].
Proof.
  assert (Hplain : Forall (plainMapping stackedHost (SampleHost.fileUri "/proj/dir"))
                          (getMappings stackedHost (SampleHost.fileUri "/proj/dir"))).
  { repeat constructor; intros _; discriminate. }
  split; [reflexivity|]. split; [exact Hplain|]. split; [reflexivity|].
  apply (plain_mappings_give_their_candidates
           stackedHost (SampleHost.fileUri "/proj/dir") "foo/x/y"
           ["/lib1/x/y"; "/proj/lib2/x/y"] eq_refl Hplain).
  reflexivity.
Defined.
